(** * RealTimeServer: connection registry, message router and null transport

    A shallow embedding of [src/server/real_time_server.js].

    The server object is a record.  [_socketIoConnections] is the plain
    JavaScript object the constructor creates with [{}]: its own properties,
    a [gmap string Socket], and its prototype, since reading and assigning a
    property go through the prototype chain.  Every method runs in a
    state-and-exception monad over a [World]: the server object, the
    chronological list of calls made on the collaborators (sockets, the
    Socket.IO server, the node HTTP server and the EventEmitter the class
    extends), and the allocation counter that gives each [new] object its
    identity.  A JavaScript exception does not roll the state back, so a
    throwing computation still returns the world it reached.

    Client ids are strings; [undefined] appears only where the code guards
    against it ([socket.id], the constructor argument, the not yet started
    [_ioServer]).  Of a socket of the real transport only the members the
    server uses are modelled ([id], [emit], [broadcast]).  The listeners of
    the server's events are outside this file: an emit is recorded, and
    listeners are taken to return without calling back into the server. *)

From stdpp Require Import gmap strings list fin_maps.

Open Scope string_scope.
Open Scope list_scope.
Open Scope nat_scope.
Open Scope stdpp_scope.

(** ** Failures *)

(** [failFast.unlessDefined(v, name)] and [failFast.unlessTrue(b, message)]
    throw; the error keeps what the call site passed.  [TypeError] is what the
    language throws when a property of [undefined] is read. *)
Inductive Error : Type :=
| UnlessDefinedFailed (variableName : string)
| UnlessTrueFailed (message : string)
| TypeError (property : string).

Inductive outcome (A : Type) : Type :=
| Return (a : A)
| Throw (e : Error).
Arguments Return {A} a.
Arguments Throw {A} e.

Definition threw {A} (o : outcome A) : bool :=
  match o with Return _ => false | Throw _ => true end.

Definition completed {A} (o : outcome A) : bool := negb (threw o).

(** ** Collaborators *)

(** [new NullHttpServer()] or a real HTTP server handed in by the caller. *)
Inductive HttpServer : Type := NullHttpServer | RealHttpServer.

(** What [httpServer.getNodeServer()] returns: for the null server the object
    [{ on: noOp, removeListener: noOp }]. *)
Inductive NodeServer : Type := NullNodeServer | RealNodeServer.

Definition getNodeServer (httpServer : HttpServer) : NodeServer :=
  match httpServer with
  | NullHttpServer => NullNodeServer
  | RealHttpServer => RealNodeServer
  end.

(** The two values [_io] takes: the [socket.io] module and [nullIo]. *)
Inductive IoFactory : Type := io | nullIo.

(** The object [_io(nodeServer)] returns, with its identity. *)
Inductive IoServer : Type :=
| NullIoServer (ref : nat)
| SocketIoServer (ref : nat) (attachedTo : NodeServer).

(** A transport handle.  [NullSocket] is the class of this file: its [id] is
    whatever the constructor received and [isNull] is [true].  [IoSocket] is a
    socket of the real transport, which has no [isNull] property.  [ref] is the
    identity of the object. *)
Inductive Socket : Type :=
| NullSocket (ref : nat) (id : option string)
| IoSocket (ref : nat) (id : option string).

Definition socketId (socket : Socket) : option string :=
  match socket with
  | NullSocket _ id => id
  | IoSocket _ id => id
  end.

(** [socket.isNull === true] *)
Definition isNull (socket : Socket) : bool :=
  match socket with
  | NullSocket _ _ => true
  | IoSocket _ _ => false
  end.

Definition socketRef (socket : Socket) : nat :=
  match socket with
  | NullSocket ref _ => ref
  | IoSocket ref _ => ref
  end.

#[global] Instance Socket_eq_dec : EqDecision Socket.
Proof. solve_decision. Defined.

(** ** The registry object *)

(** What reading a property of the registry can give, when it is not
    [undefined]: a socket; the object a socket's [broadcast] getter returns,
    whose only member is [emit]; or a value with none of the members the
    server asks for (a function, a string, a boolean, [Object.prototype]). *)
Inductive Value : Type :=
| VSocket (socket : Socket)
| VBroadcast (socket : Socket)
| VInert (description : string).

#[global] Instance Value_eq_dec : EqDecision Value.
Proof. solve_decision. Defined.

(** A plain object holding sockets: the properties assigned to it, and its
    prototype, which is [Object.prototype] ([None]) until a socket is assigned
    to [__proto__]. *)
Record Registry : Type := {
  own : gmap string Socket;
  prototype : option Socket
}.

(** [{}] *)
Definition emptyObject : Registry := {| own := ∅; prototype := None |}.

(** The methods every object inherits from [Object.prototype]; [__proto__],
    an accessor, is treated apart. *)
Definition objectPrototypeNames : list string :=
  ["constructor"; "hasOwnProperty"; "isPrototypeOf"; "propertyIsEnumerable";
   "toLocaleString"; "toString"; "valueOf"; "__defineGetter__";
   "__defineSetter__"; "__lookupGetter__"; "__lookupSetter__"].

Definition objectPrototypeMember (key : string) : option Value :=
  if decide (key ∈ objectPrototypeNames) then Some (VInert key) else None.

(** The members of a socket, as a lookup that has reached it sees them: the
    [id] the constructor stored, the getter [isNull] of a [NullSocket], the
    method [emit], the getter [broadcast], the class as [constructor], then
    what [Object.prototype] gives. *)
Definition socketMember (socket : Socket) (key : string) : option Value :=
  if decide (key = "id") then VInert <$> socketId socket
  else if decide (key = "isNull") then
    if isNull socket then Some (VInert "true") else None
  else if decide (key = "emit") then Some (VInert "emit")
  else if decide (key = "broadcast") then Some (VBroadcast socket)
  else if decide (key = "constructor") then Some (VInert "constructor")
  else objectPrototypeMember key.

(** The members that are getters without a setter, [isNull] and [broadcast]
    in the class [NullSocket]: assigning through them throws in strict mode.
    [broadcast] is taken to be a getter on a socket of the real transport as
    well. *)
Definition readOnlyMember (socket : Socket) (key : string) : bool :=
  (isNull socket && bool_decide (key = "isNull")) || bool_decide (key = "broadcast").

(** What the prototype chain gives for [key]: the prototype itself for
    [__proto__], else the member of that name. *)
Definition inherited (o : Registry) (key : string) : option Value :=
  if decide (key = "__proto__") then
    Some (match prototype o with
          | Some socket => VSocket socket
          | None => VInert "Object.prototype"
          end)
  else
    match prototype o with
    | Some socket => socketMember socket key
    | None => objectPrototypeMember key
    end.

(** [o[key]]; [None] is [undefined]. *)
#[global] Instance Registry_lookup : Lookup string Value Registry := λ key o,
  match own o !! key with
  | Some socket => Some (VSocket socket)
  | None => inherited o key
  end.

(** [o[key] = socket] in strict mode; [None] is the TypeError of an
    assignment through a getter.  An own property is overwritten; assigning
    [__proto__] replaces the prototype and adds no property; otherwise a new
    own property is added. *)
Definition setProperty (o : Registry) (key : string) (socket : Socket)
  : option Registry :=
  match own o !! key with
  | Some _ => Some {| own := <[key := socket]> (own o); prototype := prototype o |}
  | None =>
      if decide (key = "__proto__") then
        Some {| own := own o; prototype := Some socket |}
      else if from_option (λ p, readOnlyMember p key) false (prototype o) then None
      else Some {| own := <[key := socket]> (own o); prototype := prototype o |}
  end.


(** [delete o[key]]: removes an own property, and nothing else. *)
Definition deleteProperty (o : Registry) (key : string) : Registry :=
  {| own := delete key (own o); prototype := prototype o |}.

(** [Object.keys(o)], in no particular order: the own properties. *)
Definition Object_keys (o : Registry) : list string := elements (dom (own o)).

(** The names that give a value on every object, whatever was assigned. *)
Definition inheritedName (key : string) : bool :=
  bool_decide (key = "__proto__") || bool_decide (key ∈ objectPrototypeNames).

Inductive SEND_TYPE : Type := ONE_CLIENT | ALL_CLIENTS | ALL_CLIENTS_BUT_ONE.

Definition SEND_TYPE_string (t : SEND_TYPE) : string :=
  match t with
  | ONE_CLIENT => "one_client"
  | ALL_CLIENTS => "all_clients"
  | ALL_CLIENTS_BUT_ONE => "all_clients_but_one"
  end.

Section RealTimeServer.

(** Payloads are opaque to the server: it only passes them on. *)
Context {Payload : Type}.

(** A message is anything with [name()] and [payload()]. *)
Record Message : Type := { name : string; payload : Payload }.

(** The object handed to [recordServerMessage]; [clientId] is absent for a
    broadcast to all clients. *)
Record SendRecord : Type := {
  message : Message;
  clientId : option string;
  type : SEND_TYPE
}.

(** [RealTimeServer.EVENT], each with the data emitted along. *)
Inductive Event : Type :=
| CLIENT_DISCONNECT (key : string)
| CLIENT_CONNECT (key : string)
| CLIENT_MESSAGE (clientId : string) (message : Message)
| SERVER_MESSAGE (messageInfo : SendRecord).

Definition EVENT_string (e : Event) : string :=
  match e with
  | CLIENT_DISCONNECT _ => "clientDisconnect"
  | CLIENT_CONNECT _ => "clientConnect"
  | CLIENT_MESSAGE _ _ => "clientMessage"
  | SERVER_MESSAGE _ => "serverMessage"
  end.

(** Calls made on objects outside the server's own fields. *)
Inductive Effect : Type :=
| SocketEmit (socket : Socket) (name : string) (payload : Payload)
| SocketBroadcastEmit (socket : Socket) (name : string) (payload : Payload)
| IoServerEmit (ioServer : IoServer) (name : string) (payload : Payload)
| IoServerOn (ioServer : IoServer) (event : string)
| IoServerClose (ioServer : IoServer)
| NodeServerOn (nodeServer : NodeServer) (event : string)
| NodeServerRemoveListener (nodeServer : NodeServer) (event : string)
| SelfEmit (event : Event).

(** The fields of a [RealTimeServer] instance.  [_ioServer] and
    [_lastSentMessage] are not assigned by the constructor: [None] is
    [undefined]. *)
Record RealTimeServer : Type := {
  _nodeHttpServer : NodeServer;
  _socketIoConnections : Registry;
  _io : IoFactory;
  _ioServer : option IoServer;
  _lastSentMessage : option SendRecord
}.

Record World : Type := {
  self : RealTimeServer;
  effects : list Effect;
  nextRef : nat
}.

(** ** The monad *)

Definition M (A : Type) : Type := World → outcome A * World.

#[local] Instance M_ret : MRet M := λ A a w, (Return a, w).

#[local] Instance M_bind : MBind M := λ A B f m w,
  match m w with
  | (Return a, w') => f a w'
  | (Throw e, w') => (Throw e, w')
  end.

Definition throw {A} (e : Error) : M A := λ w, (Throw e, w).

Definition this : M RealTimeServer := λ w, (Return (self w), w).

Definition assign (f : RealTimeServer → RealTimeServer) : M unit := λ w,
  (Return (), {| self := f (self w); effects := effects w; nextRef := nextRef w |}).

Definition perform (e : Effect) : M unit := λ w,
  (Return (), {| self := self w; effects := effects w ++ [e]; nextRef := nextRef w |}).

(** [new]: the fresh object's identity. *)
Definition new : M nat := λ w,
  (Return (nextRef w),
   {| self := self w; effects := effects w; nextRef := S (nextRef w) |}).

Definition set_socketIoConnections (c : Registry) (s : RealTimeServer)
  : RealTimeServer :=
  {| _nodeHttpServer := _nodeHttpServer s; _socketIoConnections := c;
     _io := _io s; _ioServer := _ioServer s;
     _lastSentMessage := _lastSentMessage s |}.

Definition set_io (f : IoFactory) (s : RealTimeServer) : RealTimeServer :=
  {| _nodeHttpServer := _nodeHttpServer s;
     _socketIoConnections := _socketIoConnections s;
     _io := f; _ioServer := _ioServer s;
     _lastSentMessage := _lastSentMessage s |}.

Definition set_ioServer (i : IoServer) (s : RealTimeServer) : RealTimeServer :=
  {| _nodeHttpServer := _nodeHttpServer s;
     _socketIoConnections := _socketIoConnections s;
     _io := _io s; _ioServer := Some i;
     _lastSentMessage := _lastSentMessage s |}.

Definition set_lastSentMessage (r : SendRecord) (s : RealTimeServer)
  : RealTimeServer :=
  {| _nodeHttpServer := _nodeHttpServer s;
     _socketIoConnections := _socketIoConnections s;
     _io := _io s; _ioServer := _ioServer s;
     _lastSentMessage := Some r |}.

(** ** fail_fast.js, as this file uses it *)

(** [failFast.unlessDefined(v, name)]; the defined value is handed back so
    that the code after the guard can use it. *)
Definition unlessDefined {A} (v : option A) (variableName : string) : M A :=
  match v with
  | Some a => mret a
  | None => throw (UnlessDefinedFailed variableName)
  end.

Definition unlessTrue (b : bool) (message : string) : M unit :=
  if b then mret () else throw (UnlessTrueFailed message).

(** ** Module-level functions *)

(** [self.emit(event, data)] of the inherited EventEmitter. *)
Definition emit (event : Event) : M unit := perform (SelfEmit event).

Definition recordServerMessage (messageInfo : SendRecord) : M unit :=
  assign (set_lastSentMessage messageInfo);;
  emit (SERVER_MESSAGE messageInfo).

Definition handleClientMessage (clientId : string) (message : Message) : M unit :=
  emit (CLIENT_MESSAGE clientId message).

Definition connectClient (socket : Socket) : M unit :=
  key ← unlessDefined (socketId socket) "socket.id";
  self ← this;
  match setProperty (_socketIoConnections self) key socket with
  | Some registry =>
      assign (set_socketIoConnections registry);;
      emit (CLIENT_CONNECT key)
  | None => throw (TypeError key)
  end.

Definition disconnectClient (socket : Socket) : M unit :=
  key ← unlessDefined (socketId socket) "socket.id";
  self ← this;
  assign (set_socketIoConnections (deleteProperty (_socketIoConnections self) key));;
  emit (CLIENT_DISCONNECT key).

(** The value found is returned as it is: the guard only asks that it is not
    [undefined]. *)
Definition lookUpSocket (clientId : string) : M Value :=
  self ← this;
  match _socketIoConnections self !! clientId with
  | Some socket => mret socket
  | None =>
      throw (UnlessTrueFailed
               ("attempted to look up socket that isn't connected: ["
                  +:+ clientId +:+ "]"))
  end.

(** [socket.emit(name, payload)] on what a lookup returned: a TypeError when
    the value has no [emit]. *)
Definition valueEmit (socket : Value) (name : string) (payload : Payload) : M unit :=
  match socket with
  | VSocket s => perform (SocketEmit s name payload)
  | VBroadcast s => perform (SocketBroadcastEmit s name payload)
  | VInert _ => throw (TypeError "emit")
  end.

(** [socket.broadcast.emit(name, payload)]: only a socket has [broadcast]. *)
Definition valueBroadcastEmit (socket : Value) (name : string) (payload : Payload)
  : M unit :=
  match socket with
  | VSocket s => perform (SocketBroadcastEmit s name payload)
  | VBroadcast _ | VInert _ => throw (TypeError "emit")
  end.

(** Reading a property of [o] when [o] may be [undefined]. *)
Definition property {A} (o : option A) (p : string) : M A :=
  match o with
  | Some a => mret a
  | None => throw (TypeError p)
  end.

(** [this._io(nodeServer)]: both factories build a new server object. *)
Definition call_io (f : IoFactory) (nodeServer : NodeServer) : M IoServer :=
  match f with
  | io => ref ← new; mret (SocketIoServer ref nodeServer)
  | nullIo => ref ← new; mret (NullIoServer ref)
  end.

(** The two functions below register listeners on the Socket.IO server.  The
    listeners themselves are [onConnection] and [onDisconnect]; those installed
    for the SUPPORTED_MESSAGES decode a payload with code of the shared message
    classes and end in [handleClientMessage], as [simulateClientMessage]
    does. *)
Definition trackSocketIoConnections (ioServer : IoServer) : M unit :=
  perform (IoServerOn ioServer "connection").

Definition listenForClientMessages (ioServer : IoServer) : M unit :=
  perform (IoServerOn ioServer "connect").

Definition onConnection (socket : Socket) : M unit := connectClient socket.

Definition onDisconnect (socket : Socket) : M unit := disconnectClient socket.

(** ** The class *)

Definition newRealTimeServer (httpServer : HttpServer) : RealTimeServer :=
  {| _nodeHttpServer := getNodeServer httpServer;
     _socketIoConnections := emptyObject;
     _io := io;
     _ioServer := None;
     _lastSentMessage := None |}.

Definition constructor (httpServer : option HttpServer) : outcome RealTimeServer :=
  match httpServer with
  | None => Throw (UnlessDefinedFailed "httpServer")
  | Some h => Return (newRealTimeServer h)
  end.

Definition createNull : outcome RealTimeServer :=
  match constructor (Some NullHttpServer) with
  | Return server => Return (set_io nullIo server)
  | Throw e => Throw e
  end.

(** The world in which a newly built server lives: nothing called yet. *)
Definition boot (server : RealTimeServer) : World :=
  {| self := server; effects := []; nextRef := 0 |}.

Definition nullWorld : World := boot (set_io nullIo (newRealTimeServer NullHttpServer)).

Definition start : M unit :=
  self ← this;
  ioServer ← call_io (_io self) (_nodeHttpServer self);
  assign (set_ioServer ioServer);;
  perform (NodeServerOn (_nodeHttpServer self) "close");;
  trackSocketIoConnections ioServer;;
  listenForClientMessages ioServer.

(** The promise [stop] returns is not modelled, only the calls it makes. *)
Definition stop : M unit :=
  self ← this;
  ioServer ← property (_ioServer self) "close";
  perform (NodeServerRemoveListener (_nodeHttpServer self) "close");;
  perform (IoServerClose ioServer).

Definition sendToOneClient (clientId : string) (message : Message) : M unit :=
  socket ← lookUpSocket clientId;
  valueEmit socket (name message) (payload message);;
  recordServerMessage
    {| message := message; clientId := Some clientId; type := ONE_CLIENT |}.

Definition broadcastToAllClients (message : Message) : M unit :=
  self ← this;
  ioServer ← property (_ioServer self) "emit";
  perform (IoServerEmit ioServer (name message) (payload message));;
  recordServerMessage
    {| message := message; clientId := None; type := ALL_CLIENTS |}.

Definition broadcastToAllClientsButOne (clientToExclude : string)
    (message : Message) : M unit :=
  socket ← lookUpSocket clientToExclude;
  valueBroadcastEmit socket (name message) (payload message);;
  recordServerMessage
    {| message := message; clientId := Some clientToExclude;
       type := ALL_CLIENTS_BUT_ONE |}.

Definition getLastSentMessage (self : RealTimeServer) : option SendRecord :=
  _lastSentMessage self.

Definition isClientConnected (self : RealTimeServer) (clientId : string) : bool :=
  bool_decide (_socketIoConnections self !! clientId ≠ None).

Definition numberOfActiveConnections (self : RealTimeServer) : nat :=
  length (Object_keys (_socketIoConnections self)).

Definition simulateClientMessage (clientId : string) (message : Message) : M unit :=
  handleClientMessage clientId message.

Definition connectNullClient (clientId : string) : M unit :=
  ref ← new;
  connectClient (NullSocket ref (Some clientId)).

(** [socket.isNull === true] holds of a null socket and of no other value, so
    [disconnectClient] is reached with a socket. *)
Definition disconnectNullClient (clientId : string) : M unit :=
  socket ← lookUpSocket clientId;
  match socket with
  | VSocket s =>
      unlessTrue (isNull s)
        ("Attempted to disconnect non-null client: [" +:+ clientId +:+ "]");;
      disconnectClient s
  | VBroadcast _ | VInert _ =>
      throw (UnlessTrueFailed
               ("Attempted to disconnect non-null client: [" +:+ clientId +:+ "]"))
  end.

(** ** Driving the server *)

(** One entry into the server: a call of a public method, or the transport
    firing one of the listeners [start] registered, on a socket of its own. *)
Inductive Call : Type :=
| Start
| Stop
| SendToOneClient (clientId : string) (message : Message)
| BroadcastToAllClients (message : Message)
| BroadcastToAllClientsButOne (clientToExclude : string) (message : Message)
| SimulateClientMessage (clientId : string) (message : Message)
| ConnectNullClient (clientId : string)
| DisconnectNullClient (clientId : string)
| Connection (ref : nat) (id : option string)
| Disconnect (ref : nat) (id : option string).

Definition exec (c : Call) : M unit :=
  match c with
  | Start => start
  | Stop => stop
  | SendToOneClient clientId message => sendToOneClient clientId message
  | BroadcastToAllClients message => broadcastToAllClients message
  | BroadcastToAllClientsButOne clientToExclude message =>
      broadcastToAllClientsButOne clientToExclude message
  | SimulateClientMessage clientId message => simulateClientMessage clientId message
  | ConnectNullClient clientId => connectNullClient clientId
  | DisconnectNullClient clientId => disconnectNullClient clientId
  | Connection ref id => onConnection (IoSocket ref id)
  | Disconnect ref id => onDisconnect (IoSocket ref id)
  end.

Definition isSend (c : Call) : bool :=
  match c with
  | SendToOneClient _ _ | BroadcastToAllClients _
  | BroadcastToAllClientsButOne _ _ => true
  | _ => false
  end.

(** Runs the calls one after the other, the caller catching what each throws;
    the log pairs every call with its outcome and with the server as it was
    when the call was made. *)
Fixpoint run (calls : list Call) (w : World)
  : list (Call * RealTimeServer * outcome unit) * World :=
  match calls with
  | [] => ([], w)
  | c :: calls' =>
      let '(o, w') := exec c w in
      let '(log, w'') := run calls' w' in
      ((c, self w, o) :: log, w'')
  end.

(** ** Observations used in the statements *)

(** What was emitted on one socket, among the given effects. *)
Definition emittedOn (socket : Socket) (es : list Effect)
  : list (string * Payload) :=
  omap (λ e, match e with
             | SocketEmit s n p =>
                 if decide (s = socket) then Some (n, p) else None
             | _ => None
             end) es.

(** The events given to the listeners of the server, among the effects. *)
Definition eventsOf (es : list Effect) : list Event :=
  omap (λ e, match e with SelfEmit ev => Some ev | _ => None end) es.

(** Every socket is registered under its own id, the one that has become the
    prototype under [__proto__], and the null sockets of the registry were
    allocated before now. *)
Definition registeredWell (next : nat) (key : string) (socket : Socket) : Prop :=
  socketId socket = Some key ∧
  (isNull socket = true → socketRef socket < next).

Definition consistent (w : World) : Prop :=
  map_Forall (registeredWell (nextRef w)) (own (_socketIoConnections (self w))) ∧
  ∀ socket, prototype (_socketIoConnections (self w)) = Some socket →
    registeredWell (nextRef w) "__proto__" socket.

(** The worlds a server can be in: built by the constructor or by
    [createNull], then driven by any calls. *)
Inductive reachable : World → Prop :=
| reachable_constructor httpServer server :
    constructor httpServer = Return server → reachable (boot server)
| reachable_createNull server :
    createNull = Return server → reachable (boot server)
| reachable_exec c w : reachable w → reachable (exec c w).2.

(** Sequences of connects and disconnects on the null transport. *)
Inductive NullOp : Type :=
| ConnectNull (clientId : string)
| DisconnectNull (clientId : string).

Definition nullCall (op : NullOp) : Call :=
  match op with
  | ConnectNull clientId => ConnectNullClient clientId
  | DisconnectNull clientId => DisconnectNullClient clientId
  end.

Definition nullOpId (op : NullOp) : string :=
  match op with
  | ConnectNull clientId => clientId
  | DisconnectNull clientId => clientId
  end.

(** No id of the sequence is a name every object inherits. *)
Definition ordinaryIds (ops : list NullOp) : bool :=
  forallb (λ op, negb (inheritedName (nullOpId op))) ops.

Fixpoint count {A} (p : A → bool) (l : list A) : nat :=
  match l with
  | [] => 0
  | a :: l' => (if p a then 1 else 0) + count p l'
  end.

Definition LogEntry : Type := Call * RealTimeServer * outcome unit.

Definition isConnect (e : LogEntry) : bool :=
  match e with
  | (ConnectNullClient _, _, _) => true
  | _ => false
  end.

(** A connect of an id that [isClientConnected] did not report at the time. *)
Definition isConnectOfNewClient (e : LogEntry) : bool :=
  match e with
  | (ConnectNullClient clientId, before, _) => negb (isClientConnected before clientId)
  | _ => false
  end.

Definition isCompletedDisconnect (e : LogEntry) : bool :=
  match e with
  | (DisconnectNullClient _, _, o) => completed o
  | _ => false
  end.

(** The world after the calls. *)
Definition after (calls : list Call) (w : World) : World := (run calls w).2.

(** A server on the real transport, as the constructor builds it. *)
Definition realWorld : World := boot (newRealTimeServer RealHttpServer).

(** The message of the scenarios: a draw message with the given payload. *)
Definition DrawMessage (payloadA : Payload) : Message :=
  {| name := "draw"; payload := payloadA |}.

(** No send in the log returned: every one of them threw. *)
Definition noSendCompleted (log : list LogEntry) : bool :=
  forallb (λ e : LogEntry, implb (isSend e.1.1) (threw e.2)) log.

(** Follows the spec's words: the id has been connected and not since
    disconnected. *)
Definition connectedAndNotSinceDisconnected (clientId : string)
    (ops : list NullOp) : Prop :=
  ∃ before after : list NullOp,
    ops = (before ++ ConnectNull clientId :: after) ∧
    DisconnectNull clientId ∉ after.

(** ** Observations on whole runs *)

(** The object literal each send hands to [recordServerMessage]. *)
Definition recordOf (c : Call) : option SendRecord :=
  match c with
  | SendToOneClient clientId message =>
      Some {| message := message; clientId := Some clientId; type := ONE_CLIENT |}
  | BroadcastToAllClients message =>
      Some {| message := message; clientId := None; type := ALL_CLIENTS |}
  | BroadcastToAllClientsButOne clientToExclude message =>
      Some {| message := message; clientId := Some clientToExclude;
              type := ALL_CLIENTS_BUT_ONE |}
  | _ => None
  end.

(** The records of the sends that returned, in the order of the log. *)
Definition completedSends (log : list LogEntry) : list SendRecord :=
  omap (λ e : LogEntry, if completed e.2 then recordOf e.1.1 else None) log.

(** The records given to the SERVER_MESSAGE listeners, among the effects. *)
Definition serverMessages (es : list Effect) : list SendRecord :=
  omap (λ e, match e with SelfEmit (SERVER_MESSAGE r) => Some r | _ => None end) es.

(** The calls that assign to [_socketIoConnections]: the two null-client
    methods and the two listeners of [trackSocketIoConnections]. *)
Definition isRegistryCall (c : Call) : bool :=
  match c with
  | ConnectNullClient _ | DisconnectNullClient _
  | Connection _ _ | Disconnect _ _ => true
  | _ => false
  end.

(** The transport firing a listener, as opposed to a method call. *)
Definition isTransportEvent (c : Call) : bool :=
  match c with
  | Connection _ _ | Disconnect _ _ => true
  | _ => false
  end.

Definition isNullIoServer (ioServer : IoServer) : bool :=
  match ioServer with
  | NullIoServer _ => true
  | SocketIoServer _ _ => false
  end.

Definition isNullNodeServer (nodeServer : NodeServer) : bool :=
  match nodeServer with
  | NullNodeServer => true
  | RealNodeServer => false
  end.

(** Whether a call lands on an object of the real transport.  The methods of
    [NullSocket] ([emit], [broadcast.emit]), of [NullIoServer] ([on], [emit],
    [close]) and of the node server of [NullHttpServer] ([on],
    [removeListener]) have empty bodies; an emit on the server itself stays in
    the process. *)
Definition onRealTransport (e : Effect) : bool :=
  match e with
  | SocketEmit socket _ _ | SocketBroadcastEmit socket _ _ => negb (isNull socket)
  | IoServerEmit ioServer _ _ | IoServerOn ioServer _ | IoServerClose ioServer =>
      negb (isNullIoServer ioServer)
  | NodeServerOn nodeServer _ | NodeServerRemoveListener nodeServer _ =>
      negb (isNullNodeServer nodeServer)
  | SelfEmit _ => false
  end.

(** A server whose collaborators are all null objects. *)
Definition allNull (self : RealTimeServer) : Prop :=
  _io self = nullIo ∧
  _nodeHttpServer self = NullNodeServer ∧
  (∀ ioServer, _ioServer self = Some ioServer → isNullIoServer ioServer = true) ∧
  map_Forall (λ _ socket, isNull socket = true) (own (_socketIoConnections self)) ∧
  (∀ socket, prototype (_socketIoConnections self) = Some socket →
     isNull socket = true).

(** ** Evaluating the methods *)

Ltac eval_M :=
  repeat (unfold sendToOneClient, broadcastToAllClients,
      broadcastToAllClientsButOne, simulateClientMessage, connectNullClient,
      disconnectNullClient, start, stop, onConnection, onDisconnect,
      connectClient, disconnectClient, lookUpSocket, handleClientMessage,
      recordServerMessage, emit, trackSocketIoConnections,
      listenForClientMessages, call_io, property, unlessDefined, unlessTrue,
      valueEmit, valueBroadcastEmit,
      this, assign, perform, new, throw, mbind, M_bind, mret, M_ret in *;
    simpl in *).

(** ** Reading and assigning properties of the registry *)

Lemma lookup_own (o : Registry) key socket :
  own o !! key = Some socket → o !! key = Some (VSocket socket).
Proof. intros H. unfold lookup, Registry_lookup. by rewrite H. Qed.

Lemma lookup_not_own (o : Registry) key :
  own o !! key = None → o !! key = inherited o key.
Proof. intros H. unfold lookup at 1, Registry_lookup. by rewrite H. Qed.

Lemma socketMember_not_socket socket key other :
  socketMember socket key ≠ Some (VSocket other).
Proof.
  unfold socketMember, objectPrototypeMember.
  repeat case_decide; try done.
  - by destruct (socketId socket).
  - by destruct (isNull socket).
Qed.

(** A lookup gives a socket only for an own property, or for [__proto__] once
    a socket has become the prototype. *)
Lemma lookup_VSocket (o : Registry) key socket :
  o !! key = Some (VSocket socket) →
  own o !! key = Some socket ∨
  (own o !! key = None ∧ key = "__proto__" ∧ prototype o = Some socket).
Proof.
  destruct (own o !! key) as [s|] eqn:Hown.
  - rewrite (lookup_own _ _ _ Hown). intros [= ->]. by left.
  - rewrite (lookup_not_own _ _ Hown). unfold inherited, objectPrototypeMember.
    case_decide as Hkey.
    + destruct (prototype o); [|done]. intros [= ->]. by right.
    + destruct (prototype o) as [p|].
      * intros H. by apply socketMember_not_socket in H.
      * by case_decide.
Qed.

Lemma inherited_proto (o : Registry) : is_Some (inherited o "__proto__").
Proof. unfold inherited. rewrite decide_True by done. by eexists. Qed.

(** A name that gives [undefined] can be assigned: it is not [__proto__] and
    no getter stands in the way. *)
Lemma setProperty_undefined (o : Registry) key socket :
  o !! key = None →
  setProperty o key socket =
    Some {| own := <[key := socket]> (own o); prototype := prototype o |} ∧
  own o !! key = None.
Proof.
  intros Hnone.
  destruct (own o !! key) as [s|] eqn:Hown;
    [by rewrite (lookup_own _ _ _ Hown) in Hnone|].
  split; [|done]. rewrite (lookup_not_own _ _ Hown) in Hnone.
  unfold setProperty. rewrite Hown. unfold inherited in Hnone.
  case_decide as Hkey; [done|].
  destruct (prototype o) as [p|]; cbn; [|done].
  assert (readOnlyMember p key = false) as ->; [|done].
  unfold readOnlyMember. apply orb_false_intro.
  - destruct (decide (key = "isNull")) as [->|HisNull].
    + destruct (isNull p) eqn:Hp; [|done]. unfold socketMember in Hnone.
      cbn in Hnone. by rewrite Hp in Hnone.
    + by rewrite bool_decide_eq_false_2, andb_false_r.
  - destruct (decide (key = "broadcast")) as [->|Hbroadcast]; [done|].
    by rewrite bool_decide_eq_false_2.
Qed.

(** A name that gives a socket can be assigned again. *)
Lemma setProperty_VSocket (o : Registry) key old socket :
  o !! key = Some (VSocket old) →
  ∃ o', setProperty o key socket = Some o' ∧
    size (own o') = size (own o) ∧
    (∀ other, other ≠ key → own o' !! other = own o !! other).
Proof.
  intros [Hown|(Hown & -> & Hproto)]%lookup_VSocket; unfold setProperty;
    rewrite Hown.
  - eexists. split; [done|]. cbn. split.
    + apply map_size_insert_Some. by eexists.
    + intros other Hne. by apply lookup_insert_ne.
  - eexists. split; [done|]. done.
Qed.

(** After an assignment that did not throw, the name gives the socket
    assigned, and the other own properties are as before; so is the
    prototype, unless the name was [__proto__]. *)
Lemma setProperty_lookup (o o' : Registry) key socket :
  setProperty o key socket = Some o' →
  o' !! key = Some (VSocket socket) ∧
  (∀ other, other ≠ key → own o' !! other = own o !! other) ∧
  (key ≠ "__proto__" → prototype o' = prototype o).
Proof.
  unfold setProperty. destruct (own o !! key) as [s|] eqn:Hown.
  - intros [= <-]. split; [|split; [|done]].
    + apply lookup_own. cbn. apply lookup_insert_eq.
    + intros other Hne. cbn. by apply lookup_insert_ne.
  - case_decide as Hkey.
    + intros [= <-]. subst key. split; [|done].
      rewrite lookup_not_own by done. unfold inherited.
      by rewrite decide_True.
    + destruct (from_option _ _ _); [done|]. intros [= <-].
      split; [|split; [|done]].
      * apply lookup_own. cbn. apply lookup_insert_eq.
      * intros other Hne. cbn. by apply lookup_insert_ne.
Qed.

(** Adding or removing an own property leaves what the other names give. *)
Lemma lookup_other_own (o o' : Registry) key :
  prototype o' = prototype o →
  own o' !! key = own o !! key →
  o' !! key = o !! key.
Proof.
  intros Hproto Hown. unfold lookup, Registry_lookup, inherited.
  by rewrite Hown, Hproto.
Qed.

(** On a registry whose prototype is still [Object.prototype], every
    assignment goes through. *)
Lemma setProperty_plain (o : Registry) key socket :
  prototype o = None → is_Some (setProperty o key socket).
Proof.
  intros Hplain. unfold setProperty. rewrite Hplain.
  destruct (own o !! key); [by eexists|]. case_decide; by eexists.
Qed.

Lemma inherited_plain (o : Registry) key :
  prototype o = None →
  inherited o key = None ↔ inheritedName key = false.
Proof.
  intros Hplain. unfold inherited, inheritedName, objectPrototypeMember.
  rewrite Hplain. rewrite orb_false_iff, !bool_decide_eq_false.
  repeat case_decide; split; try done; intros [? ?]; done.
Qed.

Lemma isClientConnected_true self clientId :
  isClientConnected self clientId = true ↔
  is_Some (_socketIoConnections self !! clientId).
Proof.
  unfold isClientConnected. rewrite bool_decide_eq_true.
  apply not_eq_None_Some.
Qed.

Lemma isClientConnected_false self clientId :
  isClientConnected self clientId = false ↔
  _socketIoConnections self !! clientId = None.
Proof.
  unfold isClientConnected. rewrite bool_decide_eq_false.
  destruct (_socketIoConnections self !! clientId); naive_solver.
Qed.

Lemma Object_keys_spec (o : Registry) key :
  key ∈ Object_keys o ↔ is_Some (own o !! key).
Proof. unfold Object_keys. by rewrite elem_of_elements, elem_of_dom. Qed.

Lemma numberOfActiveConnections_size self :
  numberOfActiveConnections self = size (own (_socketIoConnections self)).
Proof.
  unfold numberOfActiveConnections, Object_keys.
  change (length (elements ?X)) with (size X). apply size_dom.
Qed.

Lemma lookUpSocket_Some w clientId socket :
  _socketIoConnections (self w) !! clientId = Some socket →
  lookUpSocket clientId w = (Return socket, w).
Proof. intros H. eval_M. by rewrite H. Qed.

Lemma lookUpSocket_None w clientId :
  _socketIoConnections (self w) !! clientId = None →
  lookUpSocket clientId w =
    (Throw (UnlessTrueFailed
              ("attempted to look up socket that isn't connected: ["
                 +:+ clientId +:+ "]")), w).
Proof. intros H. eval_M. by rewrite H. Qed.

Lemma connectClient_run w socket key registry :
  socketId socket = Some key →
  setProperty (_socketIoConnections (self w)) key socket = Some registry →
  connectClient socket w =
    (Return (),
     {| self := set_socketIoConnections registry (self w);
        effects := effects w ++ [SelfEmit (CLIENT_CONNECT key)];
        nextRef := nextRef w |}).
Proof. intros H Hset. eval_M. rewrite H. cbn. by rewrite Hset. Qed.

Lemma connectClient_refused w socket key :
  socketId socket = Some key →
  setProperty (_socketIoConnections (self w)) key socket = None →
  connectClient socket w = (Throw (TypeError key), w).
Proof. intros H Hset. eval_M. rewrite H. cbn. by rewrite Hset. Qed.

Lemma connectClient_undefined w socket :
  socketId socket = None →
  connectClient socket w = (Throw (UnlessDefinedFailed "socket.id"), w).
Proof. intros H. eval_M. by rewrite H. Qed.

Lemma disconnectClient_run w socket key :
  socketId socket = Some key →
  disconnectClient socket w =
    (Return (),
     {| self := set_socketIoConnections
                  (deleteProperty (_socketIoConnections (self w)) key) (self w);
        effects := effects w ++ [SelfEmit (CLIENT_DISCONNECT key)];
        nextRef := nextRef w |}).
Proof. intros H. eval_M. by rewrite H. Qed.

Lemma disconnectClient_undefined w socket :
  socketId socket = None →
  disconnectClient socket w = (Throw (UnlessDefinedFailed "socket.id"), w).
Proof. intros H. eval_M. by rewrite H. Qed.

Lemma connectNullClient_run w clientId registry :
  setProperty (_socketIoConnections (self w)) clientId
    (NullSocket (nextRef w) (Some clientId)) = Some registry →
  connectNullClient clientId w =
    (Return (),
     {| self := set_socketIoConnections registry (self w);
        effects := effects w ++ [SelfEmit (CLIENT_CONNECT clientId)];
        nextRef := S (nextRef w) |}).
Proof. intros Hset. eval_M. by rewrite Hset. Qed.

(** The socket is built before the assignment is refused. *)
Lemma connectNullClient_refused w clientId :
  setProperty (_socketIoConnections (self w)) clientId
    (NullSocket (nextRef w) (Some clientId)) = None →
  connectNullClient clientId w =
    (Throw (TypeError clientId),
     {| self := self w; effects := effects w; nextRef := S (nextRef w) |}).
Proof. intros Hset. eval_M. by rewrite Hset. Qed.

Lemma disconnectNullClient_absent w clientId :
  _socketIoConnections (self w) !! clientId = None →
  disconnectNullClient clientId w =
    (Throw (UnlessTrueFailed
              ("attempted to look up socket that isn't connected: ["
                 +:+ clientId +:+ "]")), w).
Proof. intros H. eval_M. by rewrite H. Qed.

Lemma disconnectNullClient_not_null w clientId socket :
  _socketIoConnections (self w) !! clientId = Some (VSocket socket) →
  isNull socket = false →
  disconnectNullClient clientId w =
    (Throw (UnlessTrueFailed
              ("Attempted to disconnect non-null client: [" +:+ clientId +:+ "]")),
     w).
Proof. intros H Hnull. eval_M. rewrite H. cbn. by rewrite Hnull. Qed.

Lemma disconnectNullClient_not_socket w clientId value :
  _socketIoConnections (self w) !! clientId = Some value →
  (∀ socket, value ≠ VSocket socket) →
  disconnectNullClient clientId w =
    (Throw (UnlessTrueFailed
              ("Attempted to disconnect non-null client: [" +:+ clientId +:+ "]")),
     w).
Proof.
  intros H Hvalue. eval_M. rewrite H. cbn.
  destruct value as [socket| |]; [by destruct (Hvalue socket)|done|done].
Qed.

Lemma disconnectNullClient_run w clientId socket key :
  _socketIoConnections (self w) !! clientId = Some (VSocket socket) →
  isNull socket = true →
  socketId socket = Some key →
  disconnectNullClient clientId w =
    (Return (),
     {| self := set_socketIoConnections
                  (deleteProperty (_socketIoConnections (self w)) key) (self w);
        effects := effects w ++ [SelfEmit (CLIENT_DISCONNECT key)];
        nextRef := nextRef w |}).
Proof. intros H Hnull Hid. eval_M. rewrite H. cbn. by rewrite Hnull, Hid. Qed.

Lemma setProperty_inherits_nothing (o : Registry) key socket :
  inherited o key = None →
  setProperty o key socket =
    Some {| own := <[key := socket]> (own o); prototype := prototype o |}.
Proof.
  intros Hnone. unfold setProperty.
  destruct (own o !! key) as [s|] eqn:Hown; [done|].
  destruct (setProperty_undefined o key socket) as [Hset _].
  { by rewrite lookup_not_own. }
  unfold setProperty in Hset. by rewrite Hown in Hset.
Qed.

(** ** The invariant of the registry *)

Lemma registeredWell_mono next next' key socket :
  next ≤ next' → registeredWell next key socket → registeredWell next' key socket.
Proof. intros Hle [Hid Href]. split; [done|]. intros Hn. specialize (Href Hn). lia. Qed.

Lemma consistent_boot server :
  _socketIoConnections server = emptyObject → consistent (boot server).
Proof.
  intros H. unfold consistent. cbn. rewrite H. split; [apply map_Forall_empty|done].
Qed.

Lemma consistent_same w w' :
  _socketIoConnections (self w') = _socketIoConnections (self w) →
  nextRef w ≤ nextRef w' →
  consistent w → consistent w'.
Proof.
  unfold consistent. intros -> Hle [Hown Hproto]. split.
  - eapply map_Forall_impl; [exact Hown|].
    intros key socket. by apply registeredWell_mono.
  - intros socket Hs. eapply registeredWell_mono; [done|]. by apply Hproto.
Qed.

Lemma consistent_lookup w key socket :
  consistent w →
  _socketIoConnections (self w) !! key = Some (VSocket socket) →
  registeredWell (nextRef w) key socket.
Proof.
  intros [Hown Hproto] [Hkey|(_ & -> & Hp)]%lookup_VSocket.
  - by apply (Hown key).
  - by apply Hproto.
Qed.

Lemma setProperty_well next (o o' : Registry) key socket :
  setProperty o key socket = Some o' →
  registeredWell next key socket →
  map_Forall (registeredWell next) (own o) →
  (∀ s, prototype o = Some s → registeredWell next "__proto__" s) →
  map_Forall (registeredWell next) (own o') ∧
  (∀ s, prototype o' = Some s → registeredWell next "__proto__" s).
Proof.
  intros Hset Hsocket Hown Hproto. unfold setProperty in Hset.
  destruct (own o !! key) as [s|].
  - injection Hset as <-. cbn. split; [by apply map_Forall_insert_2|done].
  - case_decide as Hkey.
    + injection Hset as <-. subst key. cbn. split; [done|]. by intros s [= <-].
    + destruct (from_option _ _ _); [done|]. injection Hset as <-. cbn.
      split; [by apply map_Forall_insert_2|done].
Qed.

Lemma consistent_connectClient w socket :
  (isNull socket = true → socketRef socket < nextRef w) →
  consistent w → consistent (connectClient socket w).2.
Proof.
  intros Href Hcons. destruct (socketId socket) as [key|] eqn:Hid.
  - destruct (setProperty (_socketIoConnections (self w)) key socket)
      as [registry|] eqn:Hset.
    + rewrite (connectClient_run _ _ _ _ Hid Hset). destruct Hcons as [Hown Hproto].
      by apply (setProperty_well _ _ _ _ _ Hset).
    + by rewrite (connectClient_refused _ _ _ Hid Hset).
  - by rewrite (connectClient_undefined _ _ Hid).
Qed.

Lemma consistent_disconnectClient w socket :
  consistent w → consistent (disconnectClient socket w).2.
Proof.
  intros [Hown Hproto]. destruct (socketId socket) as [key|] eqn:Hid.
  - rewrite (disconnectClient_run _ _ _ Hid). split; cbn; [|done].
    by apply map_Forall_delete.
  - by rewrite (disconnectClient_undefined _ _ Hid).
Qed.

Lemma consistent_exec c w : consistent w → consistent (exec c w).2.
Proof.
  intros Hcons. destruct c as [| |id m|m|id m|id m|id|id|ref id|ref id]; cbn [exec].
  - eapply consistent_same; [| |exact Hcons];
      eval_M; destruct (_io (self w)); cbn; auto.
  - eval_M. by destruct (_ioServer (self w)).
  - eval_M. by destruct (_socketIoConnections (self w) !! id) as [[]|].
  - eval_M. by destruct (_ioServer (self w)).
  - eval_M. by destruct (_socketIoConnections (self w) !! id) as [[]|].
  - done.
  - destruct (setProperty (_socketIoConnections (self w)) id
                (NullSocket (nextRef w) (Some id))) as [registry|] eqn:Hset.
    + rewrite (connectNullClient_run _ _ _ Hset). destruct Hcons as [Hown Hproto].
      apply (setProperty_well _ _ _ _ _ Hset).
      * split; [done|cbn; lia].
      * eapply map_Forall_impl; [exact Hown|].
        intros key socket. apply registeredWell_mono. cbn. lia.
      * intros s Hs. eapply registeredWell_mono; [|by apply Hproto]. cbn. lia.
    + rewrite (connectNullClient_refused _ _ Hset).
      eapply consistent_same; [| |exact Hcons]; cbn; [done|lia].
  - destruct (_socketIoConnections (self w) !! id) as [[socket| |]|] eqn:Hreg.
    + destruct (isNull socket) eqn:Hnull.
      * destruct (consistent_lookup _ _ _ Hcons Hreg) as [Hid _].
        rewrite (disconnectNullClient_run _ _ _ _ Hreg Hnull Hid).
        destruct Hcons as [Hown Hproto]. split; cbn; [|done].
        by apply map_Forall_delete.
      * by rewrite (disconnectNullClient_not_null _ _ _ Hreg Hnull).
    + by rewrite (disconnectNullClient_not_socket _ _ _ Hreg).
    + by rewrite (disconnectNullClient_not_socket _ _ _ Hreg).
    + by rewrite (disconnectNullClient_absent _ _ Hreg).
  - apply consistent_connectClient; [done|done].
  - by apply consistent_disconnectClient.
Qed.

Lemma reachable_consistent w : reachable w → consistent w.
Proof.
  induction 1 as [httpServer server Hnew|server Hnull|c w _ IH].
  - apply consistent_boot. destruct httpServer; cbn in Hnew; [|done].
    by injection Hnew as <-.
  - apply consistent_boot. cbn in Hnull. by injection Hnull as <-.
  - by apply consistent_exec.
Qed.

(** ** Outbound sends *)

Lemma send_to_inert_value w clientId m description :
  _socketIoConnections (self w) !! clientId = Some (VInert description) →
  sendToOneClient clientId m w = (Throw (TypeError "emit"), w) ∧
  broadcastToAllClientsButOne clientId m w = (Throw (TypeError "emit"), w).
Proof. intros H. eval_M. by rewrite H. Qed.

Lemma send_to_undefined w clientId m :
  _socketIoConnections (self w) !! clientId = None →
  let failure :=
    UnlessTrueFailed
      ("attempted to look up socket that isn't connected: [" +:+ clientId +:+ "]") in
  sendToOneClient clientId m w = (Throw failure, w) ∧
  broadcastToAllClientsButOne clientId m w = (Throw failure, w).
Proof. intros H. eval_M. by rewrite H. Qed.

(** C2, as amended: when [isClientConnected] is false of [clientId],
    [sendToOneClient] and [broadcastToAllClientsButOne] both throw the lookup
    failure; and on a server whose registry still has the prototype it was
    created with, for every [clientId] that has no entry in the registry both
    throw, the lookup failure or, when the id is a name every object inherits,
    a TypeError.  In each case the world is left as it was: the last sent
    record is the one from before and nothing, in particular no
    SERVER_MESSAGE event, was emitted. *)
Theorem send_to_unregistered_client_fails w clientId m :
  let failure :=
    UnlessTrueFailed
      ("attempted to look up socket that isn't connected: [" +:+ clientId +:+ "]") in
  let one := sendToOneClient clientId m w in
  let butOne := broadcastToAllClientsButOne clientId m w in
  (isClientConnected (self w) clientId = false →
   one = (Throw failure, w) ∧ butOne = (Throw failure, w)) ∧
  (prototype (_socketIoConnections (self w)) = None →
   own (_socketIoConnections (self w)) !! clientId = None →
   let error := if inheritedName clientId then TypeError "emit" else failure in
   one = (Throw error, w) ∧ butOne = (Throw error, w) ∧
   getLastSentMessage (self one.2) = getLastSentMessage (self w) ∧
   getLastSentMessage (self butOne.2) = getLastSentMessage (self w) ∧
   eventsOf (effects one.2) = eventsOf (effects w) ∧
   eventsOf (effects butOne.2) = eventsOf (effects w)).
Proof.
  intros failure one butOne. split.
  - intros Hnot%isClientConnected_false. by apply send_to_undefined.
  - intros Hplain Hown error.
    assert (Hboth : one = (Throw error, w) ∧ butOne = (Throw error, w)).
    { subst one butOne error.
      pose proof (lookup_not_own _ _ Hown) as Hget.
      destruct (inheritedName clientId) eqn:Hname.
      - unfold inherited, inheritedName, objectPrototypeMember in *.
        rewrite Hplain in Hget.
        case_decide; [by eapply send_to_inert_value|].
        case_decide; [by eapply send_to_inert_value|].
        by rewrite !bool_decide_eq_false_2 in Hname.
      - apply send_to_undefined. rewrite Hget. by apply inherited_plain. }
    destruct Hboth as [Hone Hbut]. by rewrite Hone, Hbut.
Qed.

(** C3: for a registered [clientId], [sendToOneClient] returns; it emits the
    message's name and payload once on the socket registered for [clientId]
    and then the SERVER_MESSAGE event; nothing is emitted on the socket of any
    other registered client; and the last sent message is the record of this
    send. *)
Theorem sendToOneClient_reaches_only_its_client w clientId m socket :
  consistent w →
  _socketIoConnections (self w) !! clientId = Some (VSocket socket) →
  let record := {| message := m; clientId := Some clientId; type := ONE_CLIENT |} in
  ∃ w', sendToOneClient clientId m w = (Return (), w') ∧
    effects w' =
      (effects w ++
         [SocketEmit socket (name m) (payload m); SelfEmit (SERVER_MESSAGE record)]) ∧
    emittedOn socket (drop (length (effects w)) (effects w')) =
      [(name m, payload m)] ∧
    (∀ other socket',
        other ≠ clientId →
        _socketIoConnections (self w) !! other = Some (VSocket socket') →
        socket' ≠ socket ∧
        emittedOn socket' (drop (length (effects w)) (effects w')) = []) ∧
    getLastSentMessage (self w') = Some record ∧
    _socketIoConnections (self w') = _socketIoConnections (self w).
Proof.
  intros Hcons Hreg record.
  eexists. split.
  { eval_M. rewrite Hreg. reflexivity. }
  cbn [effects self]. rewrite <- app_assoc. cbn [app].
  split; [done|].
  rewrite drop_app_length.
  assert (Hdiff : ∀ other socket', other ≠ clientId →
            _socketIoConnections (self w) !! other = Some (VSocket socket') →
            socket' ≠ socket).
  { intros other socket' Hne Hother ->.
    destruct (consistent_lookup _ _ _ Hcons Hreg) as [Hid _].
    destruct (consistent_lookup _ _ _ Hcons Hother) as [Hid' _]. congruence. }
  split; [|split; [|done]].
  - unfold emittedOn. cbn. by rewrite decide_True.
  - intros other socket' Hne Hother. split; [by eapply Hdiff|].
    unfold emittedOn. cbn. rewrite decide_False; [done|].
    intros Heq. by eapply Hdiff.
Qed.

Lemma broadcastToAllClients_records_helper w m ioServer :
  _ioServer (self w) = Some ioServer →
  ∃ w', broadcastToAllClients m w = (Return (), w') ∧
    _lastSentMessage (self w') =
      Some {| message := m; clientId := None; type := ALL_CLIENTS |}.
Proof. intros Hio. eexists. split; [eval_M; by rewrite Hio|done]. Qed.

(** C4, as amended: on a server that has been started, so that [_ioServer]
    is defined, [broadcastToAllClients m] returns, emits the message on the
    Socket.IO server, and leaves as last sent message the record with type
    ALL_CLIENTS, no client id and the message [m]. *)
Theorem broadcastToAllClients_records w m ioServer :
  _ioServer (self w) = Some ioServer →
  let record := {| message := m; clientId := None; type := ALL_CLIENTS |} in
  ∃ w', broadcastToAllClients m w = (Return (), w') ∧
    getLastSentMessage (self w') = Some record ∧
    type record = ALL_CLIENTS ∧ message record = m ∧
    effects w' =
      (effects w ++
         [IoServerEmit ioServer (name m) (payload m);
          SelfEmit (SERVER_MESSAGE record)]).
Proof.
  intros Hio record. eexists. split.
  { eval_M. rewrite Hio. reflexivity. }
  cbn. by rewrite <- app_assoc.
Qed.

(** [start] always returns and defines [_ioServer]. *)
Lemma start_defines_ioServer w :
  ∃ w' ioServer, start w = (Return (), w') ∧ _ioServer (self w') = Some ioServer.
Proof. eval_M. destruct (_io (self w)); eval_M; eauto. Qed.

(** Once defined, [_ioServer] stays defined whatever is called next. *)
Lemma exec_keeps_ioServer c w :
  is_Some (_ioServer (self w)) → is_Some (_ioServer (self (exec c w).2)).
Proof.
  intros [ioServer Hio].
  destruct c as [| |id m|m|id m|id m|id|id|ref id|ref id]; cbn [exec].
  - destruct (start_defines_ioServer w) as (w' & ioServer' & Hrun & Hdef).
    rewrite Hrun. cbn [snd]. rewrite Hdef. by eexists.
  - eval_M. rewrite Hio. cbn. by eexists.
  - eval_M. destruct (_socketIoConnections (self w) !! id) as [[]|]; cbn; by eexists.
  - eval_M. rewrite Hio. cbn. by eexists.
  - eval_M. destruct (_socketIoConnections (self w) !! id) as [[]|]; cbn; by eexists.
  - cbn. by eexists.
  - eval_M. destruct (setProperty _ _ _); cbn; by eexists.
  - eval_M.
    destruct (_socketIoConnections (self w) !! id) as [[socket| |]|];
      cbn; try by eexists.
    destruct (isNull socket); [|cbn; by eexists].
    cbn. destruct (socketId socket); cbn; by eexists.
  - eval_M. destruct id; cbn; [|by eexists].
    destruct (setProperty _ _ _); cbn; by eexists.
  - eval_M. destruct id; cbn; by eexists.
Qed.

(** ** Inbound messages *)

Lemma simulateClientMessage_run w clientId m :
  simulateClientMessage clientId m w =
    (Return (),
     {| self := self w;
        effects := effects w ++ [SelfEmit (CLIENT_MESSAGE clientId m)];
        nextRef := nextRef w |}).
Proof. reflexivity. Qed.

(** C7: for a connected [clientId], [simulateClientMessage] returns, emits
    one event, the CLIENT_MESSAGE carrying this [clientId] and this message,
    and leaves every field of the server (the registry and the last sent
    message among them) as it was. *)
Theorem simulateClientMessage_emits_one_event w clientId m :
  isClientConnected (self w) clientId = true →
  ∃ w', simulateClientMessage clientId m w = (Return (), w') ∧
    effects w' = (effects w ++ [SelfEmit (CLIENT_MESSAGE clientId m)]) ∧
    eventsOf (drop (length (effects w)) (effects w')) =
      [CLIENT_MESSAGE clientId m] ∧
    self w' = self w ∧
    _socketIoConnections (self w') = _socketIoConnections (self w) ∧
    getLastSentMessage (self w') = getLastSentMessage (self w).
Proof.
  intros _. rewrite simulateClientMessage_run. eexists. split; [done|].
  cbn [effects self]. by rewrite drop_app_length.
Qed.

(** C9: [simulateClientMessage] does not look at the registry: for an id
    that is not connected it returns as well and emits the CLIENT_MESSAGE
    event with that id and message. *)
Theorem simulateClientMessage_ignores_registry w clientId m :
  isClientConnected (self w) clientId = false →
  ∃ w', simulateClientMessage clientId m w = (Return (), w') ∧
    effects w' = (effects w ++ [SelfEmit (CLIENT_MESSAGE clientId m)]) ∧
    self w' = self w.
Proof. intros _. rewrite simulateClientMessage_run. by eexists. Qed.

(** ** Connecting and disconnecting null clients *)

(** C5, as amended: for a [clientId] that is not a name the registry
    inherits, connecting it and then disconnecting it both return, and
    afterwards the registry has forgotten the id: looking it up throws,
    [isClientConnected] is false, and the id is not among the keys of the
    registry.  When the id was not registered before, the registry is back to
    what it was. *)
Theorem connect_then_disconnect_forgets w clientId :
  inherited (_socketIoConnections (self w)) clientId = None →
  ∃ w1 w2,
    connectNullClient clientId w = (Return (), w1) ∧
    disconnectNullClient clientId w1 = (Return (), w2) ∧
    (∃ message, lookUpSocket clientId w2 = (Throw (UnlessTrueFailed message), w2)) ∧
    isClientConnected (self w2) clientId = false ∧
    ¬ (clientId ∈ Object_keys (_socketIoConnections (self w2))) ∧
    (isClientConnected (self w) clientId = false →
     _socketIoConnections (self w2) = _socketIoConnections (self w)).
Proof.
  intros Hinherits. eexists _, _. split.
  { apply connectNullClient_run. by apply setProperty_inherits_nothing. }
  split.
  { apply (disconnectNullClient_run _ clientId
             (NullSocket (nextRef w) (Some clientId)) clientId); [|done|done].
    apply lookup_own. cbn. apply lookup_insert_eq. }
  match goal with |- context [lookUpSocket clientId ?w2] => set (W := w2) end.
  assert (HW : _socketIoConnections (self W) =
               {| own := delete clientId (own (_socketIoConnections (self w)));
                  prototype := prototype (_socketIoConnections (self w)) |}).
  { subst W. cbn. unfold deleteProperty. cbn. by rewrite delete_insert_eq. }
  assert (Hgone : _socketIoConnections (self W) !! clientId = None).
  { rewrite HW, lookup_not_own by apply lookup_delete_eq. exact Hinherits. }
  repeat split.
  - eexists. by apply lookUpSocket_None.
  - by apply isClientConnected_false.
  - rewrite Object_keys_spec, HW. cbn. rewrite lookup_delete_eq. by intros [? ?].
  - intros Hnot%isClientConnected_false.
    destruct (setProperty_undefined _ _ (NullSocket 0 None) Hnot) as [_ Hown].
    rewrite HW, delete_id by done.
    by destruct (_socketIoConnections (self w)).
Qed.


(** In a consistent world the guard is exact: a registered null client is
    disconnected. *)
Lemma disconnectNullClient_completes w clientId socket :
  consistent w →
  _socketIoConnections (self w) !! clientId = Some (VSocket socket) →
  isNull socket = true →
  ∃ w', disconnectNullClient clientId w = (Return (), w') ∧
    _socketIoConnections (self w') =
      deleteProperty (_socketIoConnections (self w)) clientId.
Proof.
  intros Hcons Hreg Hnull. destruct (consistent_lookup _ _ _ Hcons Hreg) as [Hid _].
  eexists. split; [by apply disconnectNullClient_run with socket|done].
Qed.

(** C8: connecting an already connected [clientId] again returns; the
    registry now holds under that id the newly built null socket, an object
    other than the one registered before; one more CLIENT_CONNECT event was
    emitted; and the number of active connections did not change. *)
Theorem connectNullClient_again_replaces w clientId old :
  consistent w →
  _socketIoConnections (self w) !! clientId = Some (VSocket old) →
  ∃ w' fresh,
    connectNullClient clientId w = (Return (), w') ∧
    _socketIoConnections (self w') !! clientId = Some (VSocket fresh) ∧
    fresh = NullSocket (nextRef w) (Some clientId) ∧
    fresh ≠ old ∧
    effects w' = (effects w ++ [SelfEmit (CLIENT_CONNECT clientId)]) ∧
    numberOfActiveConnections (self w') = numberOfActiveConnections (self w) ∧
    (∀ other, other ≠ clientId →
       own (_socketIoConnections (self w')) !! other =
       own (_socketIoConnections (self w)) !! other) ∧
    (clientId ≠ "__proto__" →
     ∀ other, other ≠ clientId →
       _socketIoConnections (self w') !! other =
       _socketIoConnections (self w) !! other).
Proof.
  intros Hcons Hreg.
  destruct (setProperty_VSocket _ _ _ (NullSocket (nextRef w) (Some clientId)) Hreg)
    as (registry & Hset & Hsize & Hothers).
  destruct (setProperty_lookup _ _ _ _ Hset) as (Hnew & _ & Hproto).
  eexists _, _.
  split; [by apply connectNullClient_run|].
  cbn [self effects _socketIoConnections set_socketIoConnections].
  split; [exact Hnew|]. split; [done|]. split.
  { intros <-. destruct (consistent_lookup _ _ _ Hcons Hreg) as [_ Href].
    specialize (Href eq_refl). cbn in Href. lia. }
  split; [done|]. split; [by rewrite !numberOfActiveConnections_size|].
  split; [done|].
  intros Hkey other Hne. apply lookup_other_own; [by apply Hproto|by apply Hothers].
Qed.

(** ** Sequences of calls *)

Lemma run_cons c calls w :
  run (c :: calls) w =
    ((c, self w, (exec c w).1) :: (run calls (exec c w).2).1,
     (run calls (exec c w).2).2).
Proof.
  cbn [run]. destruct (exec c w) as [o w']. cbn [fst snd].
  by destruct (run calls w').
Qed.

Lemma run_snoc calls c w :
  run (calls ++ [c]) w =
    ((run calls w).1 ++ [(c, self (run calls w).2, (exec c (run calls w).2).1)],
     (exec c (run calls w).2).2).
Proof.
  revert w. induction calls as [|c' calls IH]; intros w.
  - cbn. by destruct (exec c w).
  - rewrite <- app_comm_cons, !run_cons, IH. done.
Qed.

Lemma count_app {A} (p : A → bool) (l l' : list A) :
  count p (l ++ l') = count p l + count p l'.
Proof. induction l as [|a l IH]; cbn; [done|]. rewrite IH. lia. Qed.

Lemma exec_keeps_lastSentMessage c w :
  implb (isSend c) (threw (exec c w).1) = true →
  _lastSentMessage (self (exec c w).2) = _lastSentMessage (self w).
Proof.
  destruct c as [| |id m|m|id m|id m|id|id|ref id|ref id]; cbn [exec isSend implb].
  - intros _. eval_M. by destruct (_io (self w)).
  - intros _. eval_M. by destruct (_ioServer (self w)).
  - eval_M. by destruct (_socketIoConnections (self w) !! id) as [[]|].
  - eval_M. by destruct (_ioServer (self w)).
  - eval_M. by destruct (_socketIoConnections (self w) !! id) as [[]|].
  - done.
  - intros _. eval_M. by destruct (setProperty _ _ _).
  - intros _. eval_M.
    destruct (_socketIoConnections (self w) !! id) as [[socket| |]|]; try done.
    cbn. destruct (isNull socket); [|done].
    cbn. by destruct (socketId socket).
  - intros _. eval_M. destruct id; [|done]. cbn. by destruct (setProperty _ _ _).
  - intros _. eval_M. by destruct id.
Qed.

Lemma run_keeps_lastSentMessage calls w :
  noSendCompleted (run calls w).1 = true →
  _lastSentMessage (self (run calls w).2) = _lastSentMessage (self w).
Proof.
  revert w. induction calls as [|c calls IH]; intros w; [done|].
  rewrite run_cons. cbn [fst snd noSendCompleted forallb].
  intros [Hc Hrest]%andb_prop.
  rewrite (IH _ Hrest). by apply exec_keeps_lastSentMessage.
Qed.

(** C10: a server built by the constructor or by [createNull] has no last
    sent message, and it has none either after any calls among which no send
    ([sendToOneClient], [broadcastToAllClients],
    [broadcastToAllClientsButOne]) returned. *)
Theorem no_last_sent_message_before_a_send httpServer server calls :
  constructor httpServer = Return server ∨ createNull = Return server →
  noSendCompleted (run calls (boot server)).1 = true →
  getLastSentMessage server = None ∧
  getLastSentMessage (self (run calls (boot server)).2) = None.
Proof.
  intros Hbuilt Hlog.
  assert (Hnew : getLastSentMessage server = None).
  { destruct Hbuilt as [Hc|Hn].
    - destruct httpServer; cbn in Hc; [|done]. by injection Hc as <-.
    - cbn in Hn. by injection Hn as <-. }
  split; [done|].
  unfold getLastSentMessage. by rewrite run_keeps_lastSentMessage.
Qed.

(** ** Sequences of connects and disconnects on the null transport *)

Lemma notSince_nil clientId : ¬ connectedAndNotSinceDisconnected clientId [].
Proof. intros (before & after & H & _). by destruct before. Qed.

Lemma notSince_snoc_connect clientId other ops :
  connectedAndNotSinceDisconnected clientId (ops ++ [ConnectNull other]) ↔
  other = clientId ∨ connectedAndNotSinceDisconnected clientId ops.
Proof.
  split.
  - intros (before & after & H & Hnot).
    destruct after as [|op after _] using rev_ind.
    + apply app_inj_tail in H as [_ H]. left. congruence.
    + rewrite app_comm_cons, app_assoc in H.
      apply app_inj_tail in H as [-> _]. right.
      exists before, after. split; [done|].
      intros Hin. apply Hnot, elem_of_app. by left.
  - intros [->|(before & after & -> & Hnot)].
    + exists ops, []. split; [done|]. apply not_elem_of_nil.
    + exists before, (after ++ [ConnectNull other]).
      split; [by rewrite <- app_assoc|].
      rewrite elem_of_app, list_elem_of_singleton.
      intros [Hin|Heq]; [done|discriminate Heq].
Qed.

Lemma notSince_snoc_disconnect clientId other ops :
  connectedAndNotSinceDisconnected clientId (ops ++ [DisconnectNull other]) ↔
  other ≠ clientId ∧ connectedAndNotSinceDisconnected clientId ops.
Proof.
  split.
  - intros (before & after & H & Hnot).
    destruct after as [|op after _] using rev_ind.
    + apply app_inj_tail in H as [_ H]. discriminate H.
    + rewrite app_comm_cons, app_assoc in H.
      apply app_inj_tail in H as [-> <-].
      rewrite elem_of_app, list_elem_of_singleton in Hnot. split.
      * intros ->. apply Hnot. by right.
      * exists before, after. split; [done|]. intros Hin. apply Hnot. by left.
  - intros (Hne & before & after & -> & Hnot).
    exists before, (after ++ [DisconnectNull other]).
    split; [by rewrite <- app_assoc|].
    rewrite elem_of_app, list_elem_of_singleton.
    intros [Hin|Heq]; [done|congruence].
Qed.

(** On a registry that has kept its prototype, an id that is not an inherited
    name gives what the own properties give. *)
Lemma lookup_ordinary (o : Registry) key :
  prototype o = None → inheritedName key = false →
  o !! key = VSocket <$> own o !! key.
Proof.
  intros Hplain Hkey. destruct (own o !! key) as [s|] eqn:Hown.
  - by apply lookup_own.
  - rewrite lookup_not_own by done. by apply inherited_plain.
Qed.

(** What holds after every sequence of null connects and disconnects of
    ordinary ids made on [nullWorld]: the registry has kept its prototype;
    only null sockets are registered, each under its id; the ids registered
    are those connected and not since disconnected; and the size of the
    registry is accounted for by the log. *)
Lemma null_sequence_invariant ops :
  ordinaryIds ops = true →
  let r := run (nullCall <$> ops) nullWorld in
  prototype (_socketIoConnections (self r.2)) = None ∧
  map_Forall (λ key socket, isNull socket = true ∧ socketId socket = Some key)
    (own (_socketIoConnections (self r.2))) ∧
  (∀ clientId,
     is_Some (own (_socketIoConnections (self r.2)) !! clientId) ↔
     connectedAndNotSinceDisconnected clientId ops) ∧
  size (own (_socketIoConnections (self r.2))) + count isCompletedDisconnect r.1 =
    count isConnectOfNewClient r.1.
Proof.
  induction ops as [|op ops IH] using rev_ind; cbn zeta in *.
  { intros _. cbn. split; [done|]. split; [apply map_Forall_empty|]. split; [|done].
    intros clientId. rewrite lookup_empty. split.
    - by intros [? ?].
    - intros H. by apply notSince_nil in H. }
  unfold ordinaryIds in *. rewrite forallb_app. cbn [forallb].
  rewrite andb_true_r. intros [Hops Hop%negb_true_iff]%andb_prop.
  rewrite fmap_app. cbn [fmap list_fmap]. rewrite run_snoc. cbn [fst snd].
  destruct (IH Hops) as (Hplain & Hnull & Hmem & Hcount). clear IH.
  set (w := (run (nullCall <$> ops) nullWorld).2) in *.
  set (log := (run (nullCall <$> ops) nullWorld).1) in *.
  rewrite !count_app. cbn [count].
  pose proof (lookup_ordinary _ _ Hplain Hop) as Hget.
  destruct op as [id|id]; cbn [nullCall exec nullOpId] in *.
  - (* connect *)
    erewrite connectNullClient_run;
      [|by apply setProperty_inherits_nothing, inherited_plain].
    cbn [fst snd self _socketIoConnections set_socketIoConnections own prototype
         isConnectOfNewClient isCompletedDisconnect].
    split; [done|].
    split; [by apply map_Forall_insert_2|]. split.
    + intros clientId. rewrite notSince_snoc_connect, <- Hmem.
      rewrite lookup_insert_is_Some.
      destruct (decide (id = clientId)); tauto.
    + destruct (own (_socketIoConnections (self w)) !! id) as [socket|] eqn:Hreg.
      * rewrite map_size_insert_Some by eauto.
        assert (isClientConnected (self w) id = true) as ->
          by (apply isClientConnected_true; rewrite Hget; by eexists).
        cbn. lia.
      * rewrite map_size_insert_None by done.
        assert (isClientConnected (self w) id = false) as ->
          by by apply isClientConnected_false.
        cbn. lia.
  - (* disconnect *)
    cbn [isConnectOfNewClient isCompletedDisconnect].
    destruct (own (_socketIoConnections (self w)) !! id) as [socket|] eqn:Hreg.
    + destruct (Hnull _ _ Hreg) as [Hisnull Hid].
      rewrite (disconnectNullClient_run _ _ _ _ Hget Hisnull Hid).
      cbn [fst snd self _socketIoConnections set_socketIoConnections
           deleteProperty own prototype].
      split; [done|].
      split; [by apply map_Forall_delete|]. split.
      * intros clientId. rewrite notSince_snoc_disconnect, <- Hmem.
        rewrite lookup_delete_is_Some. tauto.
      * rewrite map_size_delete_Some by eauto.
        assert (0 < size (own (_socketIoConnections (self w)))).
        { destruct (size (own (_socketIoConnections (self w)))) eqn:Hsize; [|lia].
          apply map_size_empty_inv in Hsize. rewrite Hsize in Hreg.
          by rewrite lookup_empty in Hreg. }
        cbn. lia.
    + rewrite (disconnectNullClient_absent _ _ Hget). cbn [fst snd].
      split; [done|]. split; [done|]. split.
      * intros clientId. rewrite notSince_snoc_disconnect, <- Hmem.
        split; [|by intros [_ ?]].
        intros Hsome. split; [|done]. intros ->.
        rewrite Hreg in Hsome. by destruct Hsome.
      * cbn. lia.
Qed.

(** C1, as amended: after any sequence of [connectNullClient] and
    [disconnectNullClient] calls on a null server, none of them for an id
    that is a name every object inherits, [numberOfActiveConnections] is the
    number of connects made for an id that was not connected at the time,
    minus the number of disconnects that returned; and of every id that is
    not such a name [isClientConnected] is true exactly when the id has been
    connected and not since disconnected. *)
Theorem null_connections_are_accounted_for ops :
  ordinaryIds ops = true →
  let r := run (nullCall <$> ops) nullWorld in
  Z.of_nat (numberOfActiveConnections (self r.2)) =
    (Z.of_nat (count isConnectOfNewClient r.1) -
     Z.of_nat (count isCompletedDisconnect r.1))%Z ∧
  ∀ clientId,
    inheritedName clientId = false →
    (isClientConnected (self r.2) clientId = true ↔
     connectedAndNotSinceDisconnected clientId ops).
Proof.
  intros Hops r.
  destruct (null_sequence_invariant ops Hops) as (Hplain & _ & Hmem & Hcount).
  fold r in Hplain, Hmem, Hcount. split.
  - rewrite numberOfActiveConnections_size. lia.
  - intros clientId Hid.
    rewrite isClientConnected_true, (lookup_ordinary _ _ Hplain Hid), <- Hmem.
    by rewrite fmap_is_Some.
Qed.

(** ** Building, starting and stopping *)

Lemma emptyObject_lookup key :
  emptyObject !! key = None ↔ inheritedName key = false.
Proof. rewrite lookup_not_own by done. by apply inherited_plain. Qed.

(** X1: The constructor throws exactly when it is given no HTTP server; the
    server it builds has no connection, no last sent message and no
    Socket.IO server yet, and [isClientConnected] is true on it of the names
    every object inherits and of no other id.  [createNull] returns such a
    server too, with the null factory and the null node server in place. *)
Theorem constructor_builds_an_empty_server httpServer :
  match constructor httpServer with
  | Throw e => httpServer = None ∧ e = UnlessDefinedFailed "httpServer"
  | Return server =>
      (∃ h, httpServer = Some h ∧ _nodeHttpServer server = getNodeServer h) ∧
      _io server = io ∧ _ioServer server = None ∧
      numberOfActiveConnections server = 0 ∧
      (∀ clientId, isClientConnected server clientId = inheritedName clientId) ∧
      getLastSentMessage server = None
  end ∧
  ∃ server, createNull = Return server ∧ allNull server ∧
    numberOfActiveConnections server = 0 ∧
    (∀ clientId, isClientConnected server clientId = inheritedName clientId) ∧
    getLastSentMessage server = None.
Proof.
  assert (Hempty : ∀ server : RealTimeServer,
            _socketIoConnections server = emptyObject →
            numberOfActiveConnections server = 0 ∧
            ∀ clientId, isClientConnected server clientId = inheritedName clientId).
  { intros server Hreg. split.
    - by rewrite numberOfActiveConnections_size, Hreg.
    - intros clientId. destruct (inheritedName clientId) eqn:Hname.
      + apply isClientConnected_true. rewrite Hreg.
        destruct (emptyObject !! clientId) eqn:Hget; [by eexists|].
        apply emptyObject_lookup in Hget. congruence.
      + apply isClientConnected_false. rewrite Hreg.
        by apply emptyObject_lookup. }
  split.
  - destruct httpServer as [h|]; cbn [constructor]; [|done].
    destruct (Hempty (newRealTimeServer h) eq_refl) as [Hcount Hnone].
    split; [by exists h|]. by repeat split.
  - eexists. split; [reflexivity|].
    destruct (Hempty (set_io nullIo (newRealTimeServer NullHttpServer)) eq_refl)
      as [Hcount Hnone].
    split; [|by repeat split].
    repeat split; [by intros ? [=]|apply map_Forall_empty|done].
Qed.

Lemma start_run w :
  let ioServer :=
    match _io (self w) with
    | io => SocketIoServer (nextRef w) (_nodeHttpServer (self w))
    | nullIo => NullIoServer (nextRef w)
    end in
  start w =
    (Return (),
     {| self := set_ioServer ioServer (self w);
        effects := effects w ++
          [NodeServerOn (_nodeHttpServer (self w)) "close";
           IoServerOn ioServer "connection"; IoServerOn ioServer "connect"];
        nextRef := S (nextRef w) |}).
Proof.
  eval_M. destruct (_io (self w)); cbn; by rewrite <- !app_assoc.
Qed.

Lemma stop_run w ioServer :
  _ioServer (self w) = Some ioServer →
  stop w =
    (Return (),
     {| self := self w;
        effects := effects w ++
          [NodeServerRemoveListener (_nodeHttpServer (self w)) "close";
           IoServerClose ioServer];
        nextRef := nextRef w |}).
Proof. intros Hio. eval_M. rewrite Hio. cbn. by rewrite <- !app_assoc. Qed.

(** X2: [stop] needs the Socket.IO server that [start] creates: on a server that
    was not started it throws a TypeError and does nothing; on a started one
    it returns, having removed the close listener from the node server and
    closed that Socket.IO server, and no field of the server has changed. *)
Theorem stop_needs_a_started_server w :
  (_ioServer (self w) = None → stop w = (Throw (TypeError "close"), w)) ∧
  (∀ ioServer, _ioServer (self w) = Some ioServer →
     ∃ w', stop w = (Return (), w') ∧
       effects w' = effects w ++
         [NodeServerRemoveListener (_nodeHttpServer (self w)) "close";
          IoServerClose ioServer] ∧
       self w' = self w).
Proof.
  split.
  - intros Hio. eval_M. by rewrite Hio.
  - intros ioServer Hio. rewrite (stop_run _ _ Hio). by eexists.
Qed.

(** X3: [start] followed by [stop] returns in every world: the Socket.IO server
    that is closed is the one [start] has just built, of the kind the factory
    [_io] makes, and the registry and the last sent message are untouched. *)
Theorem start_then_stop_closes_its_server w :
  ∃ ioServer w',
    (start ;; stop) w = (Return (), w') ∧
    _ioServer (self w') = Some ioServer ∧
    ioServer =
      match _io (self w) with
      | io => SocketIoServer (nextRef w) (_nodeHttpServer (self w))
      | nullIo => NullIoServer (nextRef w)
      end ∧
    effects w' = effects w ++
      [NodeServerOn (_nodeHttpServer (self w)) "close";
       IoServerOn ioServer "connection"; IoServerOn ioServer "connect";
       NodeServerRemoveListener (_nodeHttpServer (self w)) "close";
       IoServerClose ioServer] ∧
    _socketIoConnections (self w') = _socketIoConnections (self w) ∧
    getLastSentMessage (self w') = getLastSentMessage (self w).
Proof.
  eexists _, _. split.
  { change ((start ;; stop) w) with
      (match start w with
       | (Return _, w1) => stop w1
       | (Throw e, w1) => (Throw e, w1)
       end).
    rewrite start_run. cbn zeta. erewrite stop_run; [reflexivity|reflexivity]. }
  cbn [self effects _ioServer set_ioServer _socketIoConnections
       _nodeHttpServer getLastSentMessage _lastSentMessage].
  split; [done|]. split; [done|].
  split; [by rewrite <- app_assoc|done].
Qed.

Lemma run_keeps_ioServer calls w :
  is_Some (_ioServer (self w)) → is_Some (_ioServer (self (run calls w).2)).
Proof.
  revert w. induction calls as [|c calls IH]; intros w Hio; [done|].
  rewrite run_cons. cbn [snd]. by apply IH, exec_keeps_ioServer.
Qed.

(** X4: Once [start] has been called, whatever calls follow,
    [broadcastToAllClients] and [stop] return: nothing ever undefines the
    Socket.IO server. *)
Theorem started_server_stays_started w calls m :
  let started := (start w).2 in
  threw (start w).1 = false ∧
  threw (broadcastToAllClients m (after calls started)).1 = false ∧
  threw (stop (after calls started)).1 = false.
Proof.
  intros started.
  destruct (start_defines_ioServer w) as (w1 & ioServer & Hstart & Hio).
  subst started. rewrite Hstart. cbn [fst snd threw]. split; [done|].
  destruct (run_keeps_ioServer calls w1) as [ioServer' Hio']; [by eexists|].
  split.
  - destruct (broadcastToAllClients_records_helper (after calls w1) m ioServer' Hio')
      as (w' & -> & _). done.
  - unfold after. by rewrite (stop_run _ _ Hio').
Qed.

(** ** What a run leaves behind *)

Lemma serverMessages_app es es' :
  serverMessages (es ++ es') = serverMessages es ++ serverMessages es'.
Proof. apply omap_app. Qed.

Ltac messages :=
  cbn -[serverMessages]; rewrite ?serverMessages_app; cbn;
  rewrite ?app_nil_r; try done.

(** What one call adds to the SERVER_MESSAGE events and does to the last sent
    message: the record of the call when it is a send that returned, nothing
    otherwise. *)
Lemma exec_send_record c w :
  let sent := if completed (exec c w).1 then option_list (recordOf c) else [] in
  serverMessages (effects (exec c w).2) = serverMessages (effects w) ++ sent ∧
  _lastSentMessage (self (exec c w).2) =
    from_option Some (_lastSentMessage (self w)) (last sent).
Proof.
  destruct c as [| |id m|m|id m|id m|id|id|ref id|ref id];
    cbn [exec recordOf option_list].
  - rewrite start_run. messages.
  - destruct (_ioServer (self w)) as [ioServer|] eqn:Hio.
    + rewrite (stop_run _ _ Hio). messages.
    + eval_M. rewrite Hio. messages.
  - eval_M. destruct (_socketIoConnections (self w) !! id) as [[]|]; messages.
  - eval_M. destruct (_ioServer (self w)); messages.
  - eval_M. destruct (_socketIoConnections (self w) !! id) as [[]|]; messages.
  - rewrite simulateClientMessage_run. messages.
  - eval_M. destruct (setProperty _ _ _); messages.
  - eval_M. destruct (_socketIoConnections (self w) !! id) as [[socket| |]|];
      try messages.
    cbn. destruct (isNull socket); [|messages].
    cbn. destruct (socketId socket); messages.
  - eval_M. destruct id; [|messages]. cbn. destruct (setProperty _ _ _); messages.
  - eval_M. destruct id; messages.
Qed.

Lemma completedSends_cons (e : LogEntry) log :
  completedSends (e :: log) =
    (if completed e.2 then option_list (recordOf e.1.1) else []) ++
    completedSends log.
Proof.
  unfold completedSends. cbn [omap list_omap].
  destruct (completed e.2); [|done]. by destruct (recordOf e.1.1).
Qed.

(** X5: The SERVER_MESSAGE events of a run are the records of the sends that
    returned, one event for each, in the order of the calls: a send that
    throws emits none, and no other call emits one. *)
Theorem server_messages_are_the_completed_sends calls w :
  serverMessages (effects (run calls w).2) =
    serverMessages (effects w) ++ completedSends (run calls w).1.
Proof.
  revert w. induction calls as [|c calls IH]; intros w.
  - cbn. by rewrite app_nil_r.
  - rewrite run_cons. cbn [fst snd]. rewrite IH, completedSends_cons.
    cbn [fst snd]. destruct (exec_send_record c w) as [-> _].
    by rewrite app_assoc.
Qed.

Lemma from_option_last {A} (x : option A) (l l' : list A) :
  from_option Some (from_option Some x (last l)) (last l') =
  from_option Some x (last (l ++ l')).
Proof.
  destruct l' as [|y l' _] using rev_ind.
  - by rewrite app_nil_r.
  - by rewrite app_assoc, !last_snoc.
Qed.

(** X6: Only the last record is kept: after a run, [getLastSentMessage] is the
    record of the last send that returned, or what it was before the run when
    no send returned. *)
Theorem last_sent_message_is_the_last_completed_send calls w :
  getLastSentMessage (self (run calls w).2) =
    from_option Some (getLastSentMessage (self w))
      (last (completedSends (run calls w).1)).
Proof.
  unfold getLastSentMessage. revert w.
  induction calls as [|c calls IH]; intros w; [done|].
  rewrite run_cons. cbn [fst snd]. rewrite IH, completedSends_cons.
  cbn [fst snd]. destruct (exec_send_record c w) as [_ ->].
  apply from_option_last.
Qed.

Lemma exec_keeps_registry c w :
  isRegistryCall c = false →
  _socketIoConnections (self (exec c w).2) = _socketIoConnections (self w).
Proof.
  destruct c as [| |id m|m|id m|id m|id|id|ref id|ref id];
    cbn [exec isRegistryCall]; intros Hc; try discriminate Hc.
  - by rewrite start_run.
  - eval_M. by destruct (_ioServer (self w)).
  - eval_M. by destruct (_socketIoConnections (self w) !! id) as [[]|].
  - eval_M. by destruct (_ioServer (self w)).
  - eval_M. by destruct (_socketIoConnections (self w) !! id) as [[]|].
  - done.
Qed.

(** X7: Starting, stopping, sending and simulating never touch the registry,
    whether they return or throw: after any run of such calls the same
    clients are connected, with the same sockets. *)
Theorem only_connects_and_disconnects_change_the_registry calls w :
  forallb (λ c, negb (isRegistryCall c)) calls = true →
  _socketIoConnections (self (run calls w).2) = _socketIoConnections (self w) ∧
  numberOfActiveConnections (self (run calls w).2) =
    numberOfActiveConnections (self w) ∧
  ∀ clientId,
    isClientConnected (self (run calls w).2) clientId =
    isClientConnected (self w) clientId.
Proof.
  intros Hcalls.
  assert (Hreg : _socketIoConnections (self (run calls w).2) =
                 _socketIoConnections (self w)).
  { revert w. induction calls as [|c calls IH]; intros w; [done|].
    cbn [forallb] in Hcalls. apply andb_prop in Hcalls as [Hc Hrest].
    rewrite run_cons. cbn [snd]. rewrite (IH Hrest).
    apply exec_keeps_registry. by destruct (isRegistryCall c). }
  split; [done|]. unfold numberOfActiveConnections, isClientConnected.
  by rewrite Hreg.
Qed.

(** ** The null server stays off the network *)

Lemma socketMember_broadcast socket key other :
  socketMember socket key = Some (VBroadcast other) → other = socket.
Proof.
  unfold socketMember, objectPrototypeMember.
  repeat case_decide; try done.
  - by destruct (socketId socket).
  - by destruct (isNull socket).
  - by intros [= ->].
Qed.

(** The object of a [broadcast] getter is only found through a socket that
    has become the prototype. *)
Lemma lookup_VBroadcast (o : Registry) key socket :
  o !! key = Some (VBroadcast socket) → prototype o = Some socket.
Proof.
  destruct (own o !! key) as [s|] eqn:Hown.
  - by rewrite (lookup_own _ _ _ Hown).
  - rewrite (lookup_not_own _ _ Hown). unfold inherited, objectPrototypeMember.
    case_decide as Hkey.
    + by destruct (prototype o).
    + destruct (prototype o) as [p|].
      * by intros ->%socketMember_broadcast.
      * by case_decide.
Qed.

Lemma allNull_lookup self key value :
  allNull self →
  _socketIoConnections self !! key = Some value →
  match value with
  | VSocket socket | VBroadcast socket => isNull socket = true
  | VInert _ => True
  end.
Proof.
  intros (_ & _ & _ & Hown & Hproto) Hget. destruct value as [socket|socket|]; [| |done].
  - apply lookup_VSocket in Hget as [Hkey|(_ & _ & Hp)].
    + by apply (Hown key).
    + by apply Hproto.
  - apply lookup_VBroadcast in Hget. by apply Hproto.
Qed.

Lemma allNull_setProperty self key socket registry :
  allNull self → isNull socket = true →
  setProperty (_socketIoConnections self) key socket = Some registry →
  allNull (set_socketIoConnections registry self).
Proof.
  intros (Hio & Hnode & Hserver & Hown & Hproto) Hnull Hset.
  repeat split; try done; cbn; unfold setProperty in Hset;
    destruct (own (_socketIoConnections self) !! key);
    try (injection Hset as <-; cbn; by try apply map_Forall_insert_2);
    case_decide;
    try (injection Hset as <-; cbn; by try intros ? [= <-]);
    destruct (from_option _ _ _); try done;
    injection Hset as <-; cbn; by try apply map_Forall_insert_2.
Qed.

Lemma exec_allNull c w :
  isTransportEvent c = false →
  allNull (self w) →
  Forall (λ e, onRealTransport e = false) (effects w) →
  allNull (self (exec c w).2) ∧
  Forall (λ e, onRealTransport e = false) (effects (exec c w).2).
Proof.
  intros Hc Hnull Heffects.
  pose proof Hnull as (Hio & Hnode & Hserver & Hsockets & Hproto).
  destruct c as [| |id m|m|id m|id m|id|id|ref id|ref id];
    cbn [exec isTransportEvent] in *; try discriminate Hc.
  - rewrite start_run. cbn. rewrite Hio, Hnode. split.
    + repeat split; try done. by intros ? [= <-].
    + rewrite Forall_app. split; [done|]. by repeat constructor.
  - destruct (_ioServer (self w)) as [ioServer|] eqn:Hsrv.
    + rewrite (stop_run _ _ Hsrv). cbn. rewrite Hnode. split; [done|].
      rewrite Forall_app. split; [done|].
      repeat constructor. cbn. by rewrite (Hserver _ eq_refl).
    + eval_M. rewrite Hsrv. by cbn.
  - pose proof (allNull_lookup (self w) id) as Hvalue.
    eval_M. destruct (_socketIoConnections (self w) !! id) as [[socket|socket|]|];
      cbn; try done; (split; [done|]);
      rewrite !Forall_app; (repeat split; [done| |by repeat constructor]);
      repeat constructor; cbn; by rewrite (Hvalue _ Hnull eq_refl).
  - eval_M. destruct (_ioServer (self w)) as [ioServer|] eqn:Hsrv;
      cbn; [|done].
    split; [done|].
    rewrite !Forall_app. repeat split; [done| |by repeat constructor].
    repeat constructor. cbn. by rewrite (Hserver _ eq_refl).
  - pose proof (allNull_lookup (self w) id) as Hvalue.
    eval_M. destruct (_socketIoConnections (self w) !! id) as [[socket|socket|]|];
      cbn; try done.
    split; [done|].
    rewrite !Forall_app. repeat split; [done| |by repeat constructor].
    repeat constructor. cbn. by rewrite (Hvalue _ Hnull eq_refl).
  - rewrite simulateClientMessage_run. cbn. split; [done|].
    rewrite Forall_app. split; [done|]. by repeat constructor.
  - destruct (setProperty (_socketIoConnections (self w)) id
                (NullSocket (nextRef w) (Some id))) as [registry|] eqn:Hset.
    + rewrite (connectNullClient_run _ _ _ Hset). cbn [fst snd self effects]. split.
      * by apply (allNull_setProperty _ id (NullSocket (nextRef w) (Some id))).
      * rewrite Forall_app. split; [done|]. by repeat constructor.
    + by rewrite (connectNullClient_refused _ _ Hset).
  - eval_M. destruct (_socketIoConnections (self w) !! id) as [[socket| |]|];
      cbn; try done.
    destruct (isNull socket); cbn; [|done].
    destruct (socketId socket) as [key|]; cbn; [|done].
    split.
    + repeat split; try done. by apply map_Forall_delete.
    + rewrite Forall_app. split; [done|]. by repeat constructor.
Qed.

(** X8: A server built by [createNull] and driven through its methods alone never
    calls anything of the real transport: every socket, Socket.IO server and
    node server it has called so far is a null object, whatever the calls
    were and whether they returned or threw. *)
Theorem null_server_never_reaches_the_real_transport calls :
  forallb (λ c, negb (isTransportEvent c)) calls = true →
  Forall (λ e, onRealTransport e = false) (effects (after calls nullWorld)) ∧
  allNull (self (after calls nullWorld)).
Proof.
  assert (Hgen : ∀ w,
    forallb (λ c, negb (isTransportEvent c)) calls = true →
    allNull (self w) →
    Forall (λ e, onRealTransport e = false) (effects w) →
    Forall (λ e, onRealTransport e = false) (effects (after calls w)) ∧
    allNull (self (after calls w))).
  { unfold after. induction calls as [|c calls IH]; intros w Hcalls Hnull Heffects;
      [done|].
    cbn [forallb] in Hcalls. apply andb_prop in Hcalls as [Hc Hrest].
    rewrite run_cons. cbn [snd].
    destruct (exec_allNull c w) as [Hnull' Heffects']; try done.
    { by destruct (isTransportEvent c). }
    by apply IH. }
  intros Hcalls. apply Hgen; [done| |by constructor].
  repeat split; [by intros ? [=]|apply map_Forall_empty|done].
Qed.

(** ** More on sending and on the registry *)

(** X9: For a registered [clientToExclude], [broadcastToAllClientsButOne]
    returns: it emits the message once, through [broadcast] of the socket
    registered for that client, and directly on no socket at all; then it
    emits SERVER_MESSAGE; the last sent message is the record with the
    excluded client's id and type ALL_CLIENTS_BUT_ONE; the registry is as
    before. *)
Theorem broadcastToAllClientsButOne_goes_through_the_excluded_socket
    w clientToExclude m socket :
  _socketIoConnections (self w) !! clientToExclude = Some (VSocket socket) →
  let record := {| message := m; clientId := Some clientToExclude;
                   type := ALL_CLIENTS_BUT_ONE |} in
  ∃ w', broadcastToAllClientsButOne clientToExclude m w = (Return (), w') ∧
    effects w' =
      effects w ++
        [SocketBroadcastEmit socket (name m) (payload m);
         SelfEmit (SERVER_MESSAGE record)] ∧
    (∀ any, emittedOn any (drop (length (effects w)) (effects w')) = []) ∧
    getLastSentMessage (self w') = Some record ∧
    _socketIoConnections (self w') = _socketIoConnections (self w).
Proof.
  intros Hreg record. eexists. split.
  { eval_M. rewrite Hreg. reflexivity. }
  cbn [effects self]. rewrite <- app_assoc. cbn [app].
  split; [done|]. split; [|done].
  intros any. by rewrite drop_app_length.
Qed.

(** X10: Connecting an id that is not connected adds exactly that client: the
    call returns, the id is connected to a new null socket that a lookup
    returns, there is one more active connection, and every other id gives
    what it gave before. *)
Theorem connectNullClient_adds_one_client w clientId :
  isClientConnected (self w) clientId = false →
  ∃ w', connectNullClient clientId w = (Return (), w') ∧
    isClientConnected (self w') clientId = true ∧
    lookUpSocket clientId w' =
      (Return (VSocket (NullSocket (nextRef w) (Some clientId))), w') ∧
    numberOfActiveConnections (self w') = S (numberOfActiveConnections (self w)) ∧
    (∀ other, other ≠ clientId →
       _socketIoConnections (self w') !! other =
       _socketIoConnections (self w) !! other) ∧
    effects w' = effects w ++ [SelfEmit (CLIENT_CONNECT clientId)].
Proof.
  intros Hnot%isClientConnected_false.
  destruct (setProperty_undefined _ _ (NullSocket (nextRef w) (Some clientId)) Hnot)
    as [Hset Hown].
  eexists. split; [by apply connectNullClient_run|].
  cbn [self effects _socketIoConnections set_socketIoConnections].
  set (o := {| own := _; prototype := _ |}).
  assert (Hnew : o !! clientId = Some (VSocket (NullSocket (nextRef w) (Some clientId)))).
  { apply lookup_own. cbn. apply lookup_insert_eq. }
  split; [apply isClientConnected_true; by eexists|].
  split; [by apply lookUpSocket_Some|].
  split; [|split; [|done]].
  - rewrite !numberOfActiveConnections_size. cbn.
    by apply map_size_insert_None.
  - intros other Hne. apply lookup_other_own; [done|].
    cbn. by apply lookup_insert_ne.
Qed.

(** X11: Disconnecting a null client that has an entry of its own in the
    registry removes exactly that entry: the call returns, there is one
    active connection less, the id now gives what the registry inherits under
    that name (so it is no longer connected unless it is an inherited name),
    every other id gives what it gave before, and one CLIENT_DISCONNECT event
    carrying the id is emitted. *)
Theorem disconnectNullClient_removes_one_client w clientId socket :
  consistent w →
  own (_socketIoConnections (self w)) !! clientId = Some socket →
  isNull socket = true →
  ∃ w', disconnectNullClient clientId w = (Return (), w') ∧
    _socketIoConnections (self w') !! clientId =
      inherited (_socketIoConnections (self w)) clientId ∧
    (inherited (_socketIoConnections (self w)) clientId = None →
     isClientConnected (self w') clientId = false) ∧
    S (numberOfActiveConnections (self w')) = numberOfActiveConnections (self w) ∧
    (∀ other, other ≠ clientId →
       _socketIoConnections (self w') !! other =
       _socketIoConnections (self w) !! other) ∧
    effects w' = effects w ++ [SelfEmit (CLIENT_DISCONNECT clientId)].
Proof.
  intros Hcons Hreg Hnull.
  pose proof (lookup_own _ _ _ Hreg) as Hget.
  destruct (consistent_lookup _ _ _ Hcons Hget) as [Hid _].
  eexists. split; [by apply disconnectNullClient_run with socket|].
  cbn [self effects _socketIoConnections set_socketIoConnections].
  assert (Hafter : deleteProperty (_socketIoConnections (self w)) clientId !! clientId
                   = inherited (_socketIoConnections (self w)) clientId).
  { rewrite lookup_not_own by apply lookup_delete_eq. done. }
  split; [done|]. split.
  { intros Hnone. apply isClientConnected_false. cbn. by rewrite Hafter. }
  split; [|split; [|done]].
  - rewrite !numberOfActiveConnections_size. cbn.
    rewrite map_size_delete_Some by eauto.
    assert (size (own (_socketIoConnections (self w))) ≠ 0); [|lia].
    intros Hsize%map_size_empty_inv. rewrite Hsize in Hreg.
    by rewrite lookup_empty in Hreg.
  - intros other Hne. apply lookup_other_own; [done|].
    cbn. by apply lookup_delete_ne.
Qed.

(** ** The listeners of the transport *)

(** X12: A socket without an id is refused: both the connection listener and the
    disconnect listener throw the failure of the guard on [socket.id] and
    leave the world as it was. *)
Theorem sockets_without_id_are_refused w socket :
  socketId socket = None →
  onConnection socket w = (Throw (UnlessDefinedFailed "socket.id"), w) ∧
  onDisconnect socket w = (Throw (UnlessDefinedFailed "socket.id"), w).
Proof.
  intros Hid. split.
  - by apply connectClient_undefined.
  - by apply disconnectClient_undefined.
Qed.



(** X14: The disconnect listener removes the own property named by the id of
    its socket, whichever socket is registered there: afterwards the id gives
    what the registry inherits under that name (so it is not connected unless
    it is an inherited name) and the other ids give what they gave before.
    It emits CLIENT_DISCONNECT even when there was no such property, in which
    case the registry does not change. *)
Theorem transport_disconnect_forgets_the_id w socket key :
  socketId socket = Some key →
  ∃ w', onDisconnect socket w = (Return (), w') ∧
    _socketIoConnections (self w') !! key =
      inherited (_socketIoConnections (self w)) key ∧
    (inherited (_socketIoConnections (self w)) key = None →
     isClientConnected (self w') key = false) ∧
    (∀ other, other ≠ key →
       _socketIoConnections (self w') !! other =
       _socketIoConnections (self w) !! other) ∧
    effects w' = effects w ++ [SelfEmit (CLIENT_DISCONNECT key)] ∧
    (own (_socketIoConnections (self w)) !! key = None →
     _socketIoConnections (self w') = _socketIoConnections (self w) ∧
     numberOfActiveConnections (self w') = numberOfActiveConnections (self w)).
Proof.
  intros Hid. eexists. split; [by apply disconnectClient_run|].
  cbn [self effects _socketIoConnections set_socketIoConnections].
  assert (Hafter : deleteProperty (_socketIoConnections (self w)) key !! key
                   = inherited (_socketIoConnections (self w)) key).
  { rewrite lookup_not_own by apply lookup_delete_eq. done. }
  split; [done|]. split.
  { intros Hnone. apply isClientConnected_false. cbn. by rewrite Hafter. }
  split.
  { intros other Hne. apply lookup_other_own; [done|].
    cbn. by apply lookup_delete_ne. }
  split; [done|].
  intros Hown.
  assert (deleteProperty (_socketIoConnections (self w)) key =
          _socketIoConnections (self w)) as Hsame.
  { unfold deleteProperty. rewrite delete_id by done.
    by destruct (_socketIoConnections (self w)). }
  rewrite !numberOfActiveConnections_size.
  cbn [_socketIoConnections set_socketIoConnections]. by rewrite Hsame.
Qed.

(** ** The registry in the worlds a server can reach *)

(** X15: In every world a server can reach, each socket of the registry is
    registered under its own id, so two different ids never share a socket,
    and looking up a registered id returns a socket carrying that id. *)
Theorem reachable_registry_is_keyed_by_socket_id w key socket :
  reachable w →
  _socketIoConnections (self w) !! key = Some (VSocket socket) →
  socketId socket = Some key ∧
  lookUpSocket key w = (Return (VSocket socket), w) ∧
  ∀ key' socket',
    _socketIoConnections (self w) !! key' = Some (VSocket socket') →
    key' ≠ key → socket' ≠ socket.
Proof.
  intros Hreach%reachable_consistent Hreg.
  destruct (consistent_lookup _ _ _ Hreach Hreg) as [Hid _].
  split; [done|]. split; [by apply lookUpSocket_Some|].
  intros key' socket' Hreg' Hne ->.
  destruct (consistent_lookup _ _ _ Hreach Hreg') as [Hid' _]. congruence.
Qed.

(** X16: [numberOfActiveConnections] counts the own properties of the registry,
    without repetition.  Each of them is a connected client; but
    [isClientConnected] is true of more ids than are counted: on a registry
    that has kept its prototype, it is true exactly of the ids counted and of
    the names every object inherits. *)
Theorem active_connections_are_the_connected_clients self :
  NoDup (Object_keys (_socketIoConnections self)) ∧
  numberOfActiveConnections self = length (Object_keys (_socketIoConnections self)) ∧
  (∀ clientId,
     clientId ∈ Object_keys (_socketIoConnections self) →
     isClientConnected self clientId = true) ∧
  (prototype (_socketIoConnections self) = None →
   ∀ clientId,
     isClientConnected self clientId = true ↔
     clientId ∈ Object_keys (_socketIoConnections self) ∨
     inheritedName clientId = true).
Proof.
  split; [unfold Object_keys; apply NoDup_elements|]. split; [done|]. split.
  - intros clientId [socket Hown]%Object_keys_spec.
    apply isClientConnected_true. rewrite (lookup_own _ _ _ Hown). by eexists.
  - intros Hplain clientId.
    rewrite isClientConnected_true, Object_keys_spec.
    destruct (own (_socketIoConnections self) !! clientId) as [socket|] eqn:Hown.
    + rewrite (lookup_own _ _ _ Hown). split; [left|]; by eexists.
    + rewrite (lookup_not_own _ _ Hown).
      pose proof (inherited_plain _ clientId Hplain) as Hname.
      destruct (inherited (_socketIoConnections self) clientId) as [v|].
      * split; [|by eexists]. intros _. right.
        destruct (inheritedName clientId); [done|].
        destruct Hname as [_ Hback]. discriminate (Hback eq_refl).
      * split; [by intros [? ?]|]. intros [[? Hn]|Hyes]; [discriminate Hn|].
        destruct Hname as [Hname _]. rewrite (Hname eq_refl) in Hyes.
        discriminate Hyes.
Qed.

End RealTimeServer.

(** ** Scenarios *)

(** The claims above, on concrete servers; payloads are strings here. *)

Lemma send_to_unregistered_client_fails_scenario :
  let w := after [ConnectNullClient "c1"; DisconnectNullClient "c1"] nullWorld in
  let m := DrawMessage "payloadA" in
  isClientConnected (self w) "c1" = false ∧
  threw (sendToOneClient "c1" m w).1 = true ∧
  threw (broadcastToAllClientsButOne "c1" m w).1 = true ∧
  prototype (_socketIoConnections (self w)) = None ∧
  own (_socketIoConnections (self w)) !! "toString" = None ∧
  sendToOneClient "toString" m w = (Throw (TypeError "emit"), w) ∧
  getLastSentMessage (self (sendToOneClient "toString" m w).2) = None.
Proof.
  intros w m.
  assert (Hnot : isClientConnected (self w) "c1" = false) by (vm_compute; reflexivity).
  assert (Hplain : prototype (_socketIoConnections (self w)) = None) by reflexivity.
  assert (Hown : own (_socketIoConnections (self w)) !! "toString" = None)
    by (vm_compute; reflexivity).
  destruct (send_to_unregistered_client_fails w "c1" m) as [Hundefined _].
  destruct (Hundefined Hnot) as [Hone Hbut].
  destruct (send_to_unregistered_client_fails w "toString" m) as [_ Hinherited].
  destruct (Hinherited Hplain Hown) as (Hone' & _ & Hlast & _).
  split; [exact Hnot|]. rewrite Hone, Hbut, Hlast.
  split; [reflexivity|]. split; [reflexivity|]. split; [exact Hplain|].
  split; [exact Hown|]. split; [exact Hone'|reflexivity].
Defined.

(** C2 as first stated fails for the id [__proto__]: after it was connected
    and then disconnected, the disconnect having returned, a send to it
    returns and leaves a record. *)
Lemma send_after_disconnect_of_proto :
  let r := run [ConnectNullClient "__proto__"; DisconnectNullClient "__proto__"]
             nullWorld in
  let m := DrawMessage "payloadA" in
  (λ e : LogEntry, completed e.2) <$> r.1 = [true; true] ∧
  numberOfActiveConnections (self r.2) = 0 ∧
  threw (sendToOneClient "__proto__" m r.2).1 = false ∧
  getLastSentMessage (self (sendToOneClient "__proto__" m r.2).2) =
    Some {| message := m; clientId := Some "__proto__"; type := ONE_CLIENT |} ∧
  threw (broadcastToAllClientsButOne "__proto__" m r.2).1 = false.
Proof. intros r m. repeat split; vm_compute; reflexivity. Qed.

Lemma two_null_clients_consistent :
  consistent (Payload := string)
    (after [ConnectNullClient "c1"; ConnectNullClient "c2"] nullWorld).
Proof.
  unfold after. rewrite !run_cons. cbn [run snd].
  do 2 apply consistent_exec. by apply consistent_boot.
Qed.

Lemma sendToOneClient_scenario :
  let w := after [ConnectNullClient "c1"; ConnectNullClient "c2"] nullWorld in
  let m := DrawMessage "payloadA" in
  let c1 := NullSocket 0 (Some "c1") in
  let c2 := NullSocket 1 (Some "c2") in
  _socketIoConnections (self w) !! "c1" = Some (VSocket c1) ∧
  _socketIoConnections (self w) !! "c2" = Some (VSocket c2) ∧
  ∃ w', sendToOneClient "c1" m w = (Return (), w') ∧
    emittedOn c1 (drop (length (effects w)) (effects w')) = [("draw", "payloadA")] ∧
    emittedOn c2 (drop (length (effects w)) (effects w')) = [] ∧
    getLastSentMessage (self w') =
      Some {| message := m; clientId := Some "c1"; type := ONE_CLIENT |}.
Proof.
  intros w m c1 c2.
  assert (H1 : _socketIoConnections (self w) !! "c1" = Some (VSocket c1))
    by (vm_compute; reflexivity).
  assert (H2 : _socketIoConnections (self w) !! "c2" = Some (VSocket c2))
    by (vm_compute; reflexivity).
  destruct (sendToOneClient_reaches_only_its_client w "c1" m c1
              two_null_clients_consistent H1)
    as (w' & Hrun & _ & Hon & Hothers & Hlast & _).
  split; [exact H1|]. split; [exact H2|].
  exists w'. split; [exact Hrun|]. split; [exact Hon|]. split; [|exact Hlast].
  apply (Hothers "c2" c2); [discriminate|exact H2].
Defined.

Lemma broadcastToAllClients_scenario :
  let w := after [Start; ConnectNullClient "c1"] nullWorld in
  let m := DrawMessage "payloadA" in
  _ioServer (self w) = Some (NullIoServer 0) ∧
  ∃ w', broadcastToAllClients m w = (Return (), w') ∧
    getLastSentMessage (self w') =
      Some {| message := m; clientId := None; type := ALL_CLIENTS |}.
Proof.
  intros w m.
  assert (Hio : _ioServer (self w) = Some (NullIoServer 0)) by reflexivity.
  destruct (broadcastToAllClients_records w m (NullIoServer 0) Hio)
    as (w' & Hrun & Hlast & _).
  split; [exact Hio|]. by exists w'.
Defined.

(** C4 as first stated fails on a server that was not started: [_ioServer] is
    undefined, the broadcast throws and no record is kept. *)
Lemma broadcastToAllClients_before_start :
  let m := DrawMessage "payloadA" in
  broadcastToAllClients m nullWorld = (Throw (TypeError "emit"), nullWorld) ∧
  ¬ ∃ record,
      getLastSentMessage (self (broadcastToAllClients m nullWorld).2) = Some record ∧
      type record = ALL_CLIENTS ∧ message record = m.
Proof.
  intros m. split; [reflexivity|].
  intros (record & Hlast & _). discriminate Hlast.
Qed.

Lemma simulateClientMessage_scenario :
  let w := after [ConnectNullClient "c1"] nullWorld in
  let m := DrawMessage "payloadA" in
  isClientConnected (self w) "c1" = true ∧
  ∃ w', simulateClientMessage "c1" m w = (Return (), w') ∧
    eventsOf (drop (length (effects w)) (effects w')) = [CLIENT_MESSAGE "c1" m] ∧
    self w' = self w.
Proof.
  intros w m.
  assert (Hyes : isClientConnected (self w) "c1" = true) by (vm_compute; reflexivity).
  destruct (simulateClientMessage_emits_one_event w "c1" m Hyes)
    as (w' & Hrun & _ & Hevents & Hself & _).
  split; [exact Hyes|]. by exists w'.
Defined.

Lemma simulateClientMessage_unconnected_scenario :
  let m := DrawMessage "payloadA" in
  isClientConnected (Payload := string) (self nullWorld) "nobody" = false ∧
  ∃ w', simulateClientMessage "nobody" m nullWorld = (Return (), w') ∧
    effects w' = [SelfEmit (CLIENT_MESSAGE "nobody" m)].
Proof.
  intros m.
  assert (Hnot : isClientConnected (Payload := string) (self nullWorld) "nobody" = false)
    by (vm_compute; reflexivity).
  destruct (simulateClientMessage_ignores_registry nullWorld "nobody" m Hnot)
    as (w' & Hrun & Heffects & _).
  split; [exact Hnot|]. by exists w'.
Defined.

Lemma connect_then_disconnect_scenario :
  inherited (_socketIoConnections (self (nullWorld (Payload := string)))) "c1" = None ∧
  isClientConnected (Payload := string) (self nullWorld) "c1" = false ∧
  ∃ w2 : @World string,
    after [ConnectNullClient "c1"; DisconnectNullClient "c1"] nullWorld = w2 ∧
    threw (lookUpSocket "c1" w2).1 = true ∧
    isClientConnected (self w2) "c1" = false ∧
    _socketIoConnections (self w2) =
      _socketIoConnections (self (nullWorld (Payload := string))).
Proof.
  assert (Hname : inherited (_socketIoConnections
                    (self (nullWorld (Payload := string)))) "c1" = None)
    by (vm_compute; reflexivity).
  assert (Hnot : isClientConnected (Payload := string) (self nullWorld) "c1" = false)
    by (vm_compute; reflexivity).
  destruct (connect_then_disconnect_forgets (Payload := string) nullWorld "c1" Hname)
    as (w1 & w2 & Hconnect & Hdisconnect & (message & Hlookup) & Hgone & _ & Hback).
  split; [exact Hname|]. split; [exact Hnot|]. exists w2.
  split.
  { unfold after. rewrite !run_cons. cbn [run snd].
    cbn [exec]. rewrite Hconnect. cbn [snd]. by rewrite Hdisconnect. }
  split; [by rewrite Hlookup|]. split; [exact Hgone|]. exact (Hback Hnot).
Defined.

(** C5 as first stated fails for a name every object inherits: after
    [toString] was connected and then disconnected, both calls having
    returned, the id is still reported connected and a lookup does not
    throw. *)
Lemma connect_then_disconnect_of_inherited_name :
  let r := run (Payload := string)
             [ConnectNullClient "toString"; DisconnectNullClient "toString"]
             nullWorld in
  (λ e : LogEntry, completed e.2) <$> r.1 = [true; true] ∧
  isClientConnected (self r.2) "toString" = true ∧
  lookUpSocket "toString" r.2 = (Return (VInert "toString"), r.2).
Proof. intros r. repeat split; vm_compute; reflexivity. Qed.


Lemma one_null_client_consistent :
  consistent (Payload := string) (after [ConnectNullClient "c1"] nullWorld).
Proof.
  unfold after. rewrite !run_cons. cbn [run snd].
  apply consistent_exec. by apply consistent_boot.
Qed.

Lemma connectNullClient_again_scenario :
  let w := after [ConnectNullClient "c1"] (nullWorld (Payload := string)) in
  _socketIoConnections (self w) !! "c1" = Some (VSocket (NullSocket 0 (Some "c1"))) ∧
  ∃ w', connectNullClient "c1" w = (Return (), w') ∧
    _socketIoConnections (self w') !! "c1" =
      Some (VSocket (NullSocket 1 (Some "c1"))) ∧
    eventsOf (effects w') = [CLIENT_CONNECT "c1"; CLIENT_CONNECT "c1"] ∧
    numberOfActiveConnections (self w) = 1 ∧
    numberOfActiveConnections (self w') = 1.
Proof.
  intros w.
  assert (Hreg : _socketIoConnections (self w) !! "c1"
                 = Some (VSocket (NullSocket 0 (Some "c1"))))
    by (vm_compute; reflexivity).
  destruct (connectNullClient_again_replaces w "c1" _ one_null_client_consistent Hreg)
    as (w' & fresh & Hrun & Hnew & -> & _ & Heffects & Hcount & _).
  split; [exact Hreg|]. exists w'.
  split; [exact Hrun|]. split; [exact Hnew|].
  split; [by rewrite Heffects|].
  rewrite Hcount. split; vm_compute; reflexivity.
Defined.

Lemma no_last_sent_message_scenario :
  let m := DrawMessage "payloadA" in
  let calls := [ConnectNullClient "c1"; BroadcastToAllClients m;
                SendToOneClient "nobody" m; SimulateClientMessage "c1" m] in
  ∃ server,
    createNull = Return server ∧
    noSendCompleted (run calls (boot server)).1 = true ∧
    getLastSentMessage (self (run calls (boot server)).2) = None.
Proof.
  intros m calls. eexists. split; [reflexivity|].
  assert (Hlog : noSendCompleted
            (run calls (boot (set_io nullIo (newRealTimeServer NullHttpServer)))).1
          = true) by (vm_compute; reflexivity).
  split; [exact Hlog|].
  exact (proj2 (no_last_sent_message_before_a_send None _ calls
                  (or_intror eq_refl) Hlog)).
Defined.

(** C1 as first stated fails when an id is connected twice: two connects were
    made, no disconnect returned, and one connection is active. *)
Lemma duplicate_connect_counts_once :
  let r := run (Payload := string)
             (nullCall <$> [ConnectNull "a"; ConnectNull "a"]) nullWorld in
  count isConnect r.1 = 2 ∧
  count isCompletedDisconnect r.1 = 0 ∧
  numberOfActiveConnections (self r.2) = 1 ∧
  Z.of_nat (numberOfActiveConnections (self r.2)) ≠
    (Z.of_nat (count isConnect r.1) - Z.of_nat (count isCompletedDisconnect r.1))%Z.
Proof.
  intros r.
  assert (H1 : count isConnect r.1 = 2) by (vm_compute; reflexivity).
  assert (H2 : count isCompletedDisconnect r.1 = 0) by (vm_compute; reflexivity).
  assert (H3 : numberOfActiveConnections (self r.2) = 1) by (vm_compute; reflexivity).
  split; [exact H1|]. split; [exact H2|]. split; [exact H3|].
  rewrite H1, H2, H3. lia.
Qed.

(** It fails as well for the names every object inherits: on a new server
    [toString] is reported connected, and connecting [__proto__] adds no
    connection. *)
Lemma inherited_names_are_not_accounted_for :
  isClientConnected (Payload := string) (self nullWorld) "toString" = true ∧
  ¬ connectedAndNotSinceDisconnected "toString" [] ∧
  numberOfActiveConnections
    (self (run (Payload := string) (nullCall <$> [ConnectNull "__proto__"])
             nullWorld).2) = 0.
Proof.
  split; [vm_compute; reflexivity|]. split; [|vm_compute; reflexivity].
  apply notSince_nil.
Qed.

Lemma null_connections_scenario :
  let ops := [ConnectNull "a"; ConnectNull "b"; ConnectNull "b";
              DisconnectNull "a"; DisconnectNull "a"] in
  let r := run (Payload := string) (nullCall <$> ops) nullWorld in
  ordinaryIds ops = true ∧
  count isConnectOfNewClient r.1 = 2 ∧
  count isCompletedDisconnect r.1 = 1 ∧
  numberOfActiveConnections (self r.2) = 1 ∧
  connectedAndNotSinceDisconnected "b" ops ∧
  ¬ connectedAndNotSinceDisconnected "a" ops.
Proof.
  intros ops r.
  assert (Hops : ordinaryIds ops = true) by (vm_compute; reflexivity).
  destruct (null_connections_are_accounted_for (Payload := string) ops Hops)
    as [Hcount Hmem].
  fold r in Hcount, Hmem.
  assert (H1 : count isConnectOfNewClient r.1 = 2) by (vm_compute; reflexivity).
  assert (H2 : count isCompletedDisconnect r.1 = 1) by (vm_compute; reflexivity).
  split; [exact Hops|]. split; [exact H1|]. split; [exact H2|].
  split; [rewrite H1, H2 in Hcount; lia|]. split.
  - apply (Hmem "b"); vm_compute; reflexivity.
  - intros Ha. apply (Hmem "a") in Ha; [|vm_compute; reflexivity].
    vm_compute in Ha. discriminate Ha.
Defined.

(** *** Further scenarios *)

Lemma stop_scenario :
  let w := nullWorld (Payload := string) in
  let started := after [Start] w in
  _ioServer (self w) = None ∧
  stop w = (Throw (TypeError "close"), w) ∧
  _ioServer (self started) = Some (NullIoServer 0) ∧
  ∃ w', stop started = (Return (), w') ∧
    drop (length (effects started)) (effects w') =
      [NodeServerRemoveListener NullNodeServer "close";
       IoServerClose (NullIoServer 0)].
Proof.
  intros w started.
  destruct (stop_needs_a_started_server w) as [Hbefore _].
  destruct (stop_needs_a_started_server started) as [_ Hafter].
  destruct (Hafter (NullIoServer 0) eq_refl) as (w' & Hstop & Heffects & _).
  split; [reflexivity|]. split; [exact (Hbefore eq_refl)|].
  split; [reflexivity|]. exists w'. split; [exact Hstop|].
  rewrite Heffects. apply drop_app_length.
Defined.

Lemma registry_untouched_scenario :
  let w := after [ConnectNullClient "c1"] (nullWorld (Payload := string)) in
  let m := DrawMessage "payloadA" in
  let calls := [Start; SendToOneClient "c1" m; SendToOneClient "nobody" m;
                BroadcastToAllClients m; SimulateClientMessage "c2" m; Stop] in
  forallb (λ c, negb (isRegistryCall c)) calls = true ∧
  numberOfActiveConnections (self (run calls w).2) = 1 ∧
  isClientConnected (self (run calls w).2) "c1" = true.
Proof.
  intros w m calls.
  assert (Hcalls : forallb (λ c, negb (isRegistryCall c)) calls = true)
    by reflexivity.
  destruct (only_connects_and_disconnects_change_the_registry calls w Hcalls)
    as (_ & Hcount & Hsame).
  split; [exact Hcalls|]. rewrite Hcount, Hsame.
  split; vm_compute; reflexivity.
Defined.

Lemma null_server_scenario :
  let m := DrawMessage "payloadA" in
  let calls := [Start; ConnectNullClient "c1"; SendToOneClient "c1" m;
                BroadcastToAllClients m; BroadcastToAllClientsButOne "c1" m;
                ConnectNullClient "__proto__"; SendToOneClient "broadcast" m;
                DisconnectNullClient "c1"; Stop] in
  forallb (λ c, negb (isTransportEvent c)) calls = true ∧
  length (effects (after calls nullWorld)) = 16 ∧
  Forall (λ e, onRealTransport e = false) (effects (after calls nullWorld)).
Proof.
  intros m calls.
  assert (Hcalls : forallb (λ c, negb (isTransportEvent c)) calls = true)
    by reflexivity.
  split; [exact Hcalls|]. split; [vm_compute; reflexivity|].
  exact (proj1 (null_server_never_reaches_the_real_transport calls Hcalls)).
Defined.

Lemma broadcastToAllClientsButOne_scenario :
  let w := after [ConnectNullClient "x"; ConnectNullClient "a";
                  ConnectNullClient "b"] nullWorld in
  let m := DrawMessage "payloadA" in
  let x := NullSocket 0 (Some "x") in
  _socketIoConnections (self w) !! "x" = Some (VSocket x) ∧
  ∃ w', broadcastToAllClientsButOne "x" m w = (Return (), w') ∧
    drop (length (effects w)) (effects w') =
      [SocketBroadcastEmit x "draw" "payloadA";
       SelfEmit (SERVER_MESSAGE {| message := m; clientId := Some "x";
                                   type := ALL_CLIENTS_BUT_ONE |})] ∧
    getLastSentMessage (self w') =
      Some {| message := m; clientId := Some "x"; type := ALL_CLIENTS_BUT_ONE |}.
Proof.
  intros w m x.
  assert (Hreg : _socketIoConnections (self w) !! "x" = Some (VSocket x))
    by (vm_compute; reflexivity).
  destruct (broadcastToAllClientsButOne_goes_through_the_excluded_socket
              w "x" m x Hreg) as (w' & Hrun & Heffects & _ & Hlast & _).
  split; [exact Hreg|]. exists w'. split; [exact Hrun|].
  split; [|exact Hlast]. rewrite Heffects. apply drop_app_length.
Defined.

Lemma connectNullClient_new_client_scenario :
  let w := after [ConnectNullClient "c1"] (nullWorld (Payload := string)) in
  isClientConnected (self w) "c2" = false ∧
  ∃ w', connectNullClient "c2" w = (Return (), w') ∧
    isClientConnected (self w') "c2" = true ∧
    numberOfActiveConnections (self w') = 2 ∧
    _socketIoConnections (self w') !! "c1" =
      Some (VSocket (NullSocket 0 (Some "c1"))).
Proof.
  intros w.
  assert (Hnot : isClientConnected (self w) "c2" = false) by (vm_compute; reflexivity).
  destruct (connectNullClient_adds_one_client w "c2" Hnot)
    as (w' & Hrun & Hyes & _ & Hcount & Hothers & _).
  split; [exact Hnot|]. exists w'. split; [exact Hrun|]. split; [exact Hyes|].
  split; [rewrite Hcount; vm_compute; reflexivity|].
  rewrite (Hothers "c1") by discriminate. vm_compute; reflexivity.
Defined.

Lemma disconnectNullClient_one_client_scenario :
  let w := after [ConnectNullClient "c1"; ConnectNullClient "c2"]
             (nullWorld (Payload := string)) in
  let c1 := NullSocket 0 (Some "c1") in
  own (_socketIoConnections (self w)) !! "c1" = Some c1 ∧ isNull c1 = true ∧
  inherited (_socketIoConnections (self w)) "c1" = None ∧
  ∃ w', disconnectNullClient "c1" w = (Return (), w') ∧
    isClientConnected (self w') "c1" = false ∧
    numberOfActiveConnections (self w') = 1 ∧
    _socketIoConnections (self w') !! "c2" =
      Some (VSocket (NullSocket 1 (Some "c2"))).
Proof.
  intros w c1.
  assert (Hreg : own (_socketIoConnections (self w)) !! "c1" = Some c1)
    by (vm_compute; reflexivity).
  assert (Hname : inherited (_socketIoConnections (self w)) "c1" = None)
    by (vm_compute; reflexivity).
  destruct (disconnectNullClient_removes_one_client w "c1" c1
              two_null_clients_consistent Hreg eq_refl)
    as (w' & Hrun & _ & Hgone & Hcount & Hothers & _).
  split; [exact Hreg|]. split; [reflexivity|]. split; [exact Hname|].
  exists w'. split; [exact Hrun|]. split; [exact (Hgone Hname)|]. split.
  - apply (inj S). rewrite Hcount. vm_compute; reflexivity.
  - rewrite (Hothers "c2") by discriminate. vm_compute; reflexivity.
Defined.

Lemma socket_without_id_scenario :
  let w := after [Start] (realWorld (Payload := string)) in
  let socket := IoSocket 3 None in
  socketId socket = None ∧
  threw (onConnection socket w).1 = true ∧
  numberOfActiveConnections (self (onConnection socket w).2) = 0 ∧
  threw (onDisconnect socket w).1 = true.
Proof.
  intros w socket.
  destruct (sockets_without_id_are_refused w socket eq_refl) as [Hc Hd].
  split; [reflexivity|]. rewrite Hc, Hd.
  repeat split.
Defined.


Lemma transport_disconnect_scenario :
  let w := after [Start; Connection 3 (Some "abc"); ConnectNullClient "abc"]
             (realWorld (Payload := string)) in
  let socket := IoSocket 3 (Some "abc") in
  socketId socket = Some "abc" ∧
  _socketIoConnections (self w) !! "abc" = Some (VSocket (NullSocket 1 (Some "abc"))) ∧
  inherited (_socketIoConnections (self w)) "abc" = None ∧
  ∃ w', onDisconnect socket w = (Return (), w') ∧
    isClientConnected (self w') "abc" = false ∧
    own (_socketIoConnections (self w')) !! "abc" = None ∧
    ∃ w'', onDisconnect socket w' = (Return (), w'') ∧
      _socketIoConnections (self w'') = _socketIoConnections (self w') ∧
      eventsOf (drop (length (effects w')) (effects w'')) =
        [CLIENT_DISCONNECT "abc"].
Proof.
  intros w socket.
  assert (Hname : inherited (_socketIoConnections (self w)) "abc" = None)
    by (vm_compute; reflexivity).
  destruct (transport_disconnect_forgets_the_id w socket "abc" eq_refl)
    as (w' & Hrun & Hget & Hgone & _).
  assert (Hown : own (_socketIoConnections (self w')) !! "abc" = None).
  { rewrite Hname in Hget.
    destruct (own (_socketIoConnections (self w')) !! "abc") as [s|] eqn:Hs;
      [|reflexivity].
    rewrite (lookup_own _ _ _ Hs) in Hget. discriminate Hget. }
  destruct (transport_disconnect_forgets_the_id w' socket "abc" eq_refl)
    as (w'' & Hrun' & _ & _ & _ & Heffects & Hsame).
  split; [reflexivity|]. split; [vm_compute; reflexivity|]. split; [exact Hname|].
  exists w'. split; [exact Hrun|]. split; [exact (Hgone Hname)|].
  split; [exact Hown|].
  exists w''. split; [exact Hrun'|]. split; [exact (proj1 (Hsame Hown))|].
  rewrite Heffects, drop_app_length. reflexivity.
Defined.

Lemma reachable_registry_scenario :
  let w := (exec (ConnectNullClient "c2")
              (exec (Connection 3 (Some "abc"))
                 (realWorld (Payload := string))).2).2 in
  let socket := IoSocket 3 (Some "abc") in
  reachable w ∧
  _socketIoConnections (self w) !! "abc" = Some (VSocket socket) ∧
  socketId socket = Some "abc" ∧
  lookUpSocket "abc" w = (Return (VSocket socket), w).
Proof.
  intros w socket.
  assert (Hreach : reachable w).
  { do 2 apply reachable_exec.
    by apply (reachable_constructor (Some RealHttpServer)). }
  assert (Hreg : _socketIoConnections (self w) !! "abc" = Some (VSocket socket))
    by (vm_compute; reflexivity).
  destruct (reachable_registry_is_keyed_by_socket_id w "abc" socket Hreach Hreg)
    as (Hid & Hlookup & _).
  by repeat split.
Defined.

Lemma active_connections_scenario :
  let server := self (after [ConnectNullClient "c1"] (nullWorld (Payload := string))) in
  prototype (_socketIoConnections server) = None ∧
  numberOfActiveConnections server = 1 ∧
  isClientConnected server "c1" = true ∧
  isClientConnected server "toString" = true ∧
  ¬ ("toString" ∈ Object_keys (_socketIoConnections server)).
Proof.
  intros server.
  destruct (active_connections_are_the_connected_clients server)
    as (_ & _ & Hkeys & Hplain).
  assert (Hproto : prototype (_socketIoConnections server) = None) by reflexivity.
  assert (Hkey : "c1" ∈ Object_keys (_socketIoConnections server)).
  { apply Object_keys_spec. vm_compute. by eexists. }
  split; [exact Hproto|]. split; [vm_compute; reflexivity|].
  split; [exact (Hkeys "c1" Hkey)|]. split.
  - apply (Hplain Hproto "toString"). right. vm_compute; reflexivity.
  - rewrite Object_keys_spec. vm_compute. by intros [? ?].
Defined.
